(** * ImageAI custom classification trainer

    A shallow embedding of [imageai/Classification/Custom/__init__.py]
    (class [ClassificationModelTrainer]) and the properties of its
    training orchestration: legacy key remapping, classifier-head surgery,
    transfer-learning freeze mode, class-index mapping, epoch metrics and
    the rotation of the best checkpoint.

    Conventions of the embedding:
    - Python exceptions are values of [exn]; a call that may raise returns
      a [result];
    - Python [dict]s are association lists in insertion order ([dict]);
    - the disk is a finite map from paths to file contents plus a finite
      map of directories;
    - tensors are opaque: a tensor is represented by its shape, a double
      by an exact rational. *)

From Stdlib Require Import QArith Lqa Ascii.
From stdpp Require Import base option list sorting gmap strings pretty.

Local Open Scope string_scope.
Local Open Scope list_scope.

(** ** Exceptions *)

Inductive exn :=
| RuntimeError
| ValueError
| FileNotFoundError
| NotADirectoryError
| KeyError
| AttributeError
| TypeError
| IndexError
| ZeroDivisionError.

Inductive result (A : Type) :=
| Ok (a : A)
| Raise (e : exn).
Arguments Ok {A} a.
Arguments Raise {A} e.

Definition is_Ok {A} (r : result A) : Prop :=
  match r with Ok _ => True | Raise _ => False end.

(** ** Python dictionaries *)

Module Dict.
Section dict.
Context {V : Type}.

Definition t := list (string * V).

Definition keys (d : t) : list string := d.*1.

(** [d[k]] *)
Fixpoint get (k : string) (d : t) : option V :=
  match d with
  | [] => None
  | (k', v) :: d' => if decide (k' = k) then Some v else get k d'
  end.

(** [d[k] = v]: an existing key keeps its position, a new key goes last. *)
Fixpoint set (k : string) (v : V) (d : t) : t :=
  match d with
  | [] => [(k, v)]
  | (k', v') :: d' =>
      if decide (k' = k) then (k', v) :: d' else (k', v') :: set k v d'
  end.

(** [del d[k]] (on a key that is present). *)
Fixpoint del (k : string) (d : t) : t :=
  match d with
  | [] => []
  | (k', v') :: d' => if decide (k' = k) then del k d' else (k', v') :: del k d'
  end.

Lemma elem_of_keys_set k v d x :
  x ∈ keys (set k v d) ↔ x = k ∨ x ∈ keys d.
Proof.
  unfold keys. induction d as [|[k' v'] d IH]; simpl.
  - set_solver.
  - case_decide; subst; simpl; set_solver.
Qed.

Lemma elem_of_keys_del k d x :
  x ∈ keys (del k d) ↔ x ≠ k ∧ x ∈ keys d.
Proof.
  unfold keys. induction d as [|[k' v'] d IH]; simpl.
  - set_solver.
  - case_decide; subst; simpl; set_solver.
Qed.

Lemma get_is_Some k d : k ∈ keys d → is_Some (get k d).
Proof.
  unfold keys. induction d as [|[k' v'] d IH]; simpl.
  - by intros ?%elem_of_nil.
  - case_decide; [eauto|]. set_solver.
Qed.

Lemma NoDup_keys_del k d : NoDup (keys d) → NoDup (keys (del k d)).
Proof.
  induction d as [|[k' v'] d IH]; simpl; [done|].
  intros [Hk Hd]%NoDup_cons. case_decide; [auto|].
  simpl. apply NoDup_cons. split; [|auto].
  intros [_ ?]%elem_of_keys_del. done.
Qed.

Lemma NoDup_keys_set k v d : NoDup (keys d) → NoDup (keys (set k v d)).
Proof.
  induction d as [|[k' v'] d IH]; simpl.
  - intros _. apply NoDup_singleton.
  - intros [Hk Hd]%NoDup_cons. case_decide; subst; simpl.
    + by apply NoDup_cons.
    + apply NoDup_cons. split; [|auto].
      intros [?|?]%elem_of_keys_set; congruence.
Qed.
End dict.
Arguments t : clear implicits.
End Dict.

(** ** Regular expressions of the legacy-key pattern

    The pattern of [__set_transfer_learning_mode] only repeats character
    classes ([.*], [\d+]), so repetition is restricted to a class. *)

Inductive regex :=
| Lit (l : list ascii)
| Cls (p : ascii → bool)
| Rep (p : ascii → bool)
| Cat (r1 r2 : regex)
| Alt (r1 r2 : regex).

Fixpoint matches (r : regex) (s : list ascii) : bool :=
  match r with
  | Lit l => bool_decide (s = l)
  | Cls p => match s with [c] => p c | _ => false end
  | Rep p => forallb p s
  | Cat r1 r2 =>
      existsb (λ i, matches r1 (take i s) && matches r2 (drop i s))
              (seq 0 (S (length s)))
  | Alt r1 r2 => matches r1 s || matches r2 s
  end.

Definition newline : ascii := ascii_of_nat 10.

(** [.] without DOTALL: any character but a newline. *)
Definition any_char (c : ascii) : bool := negb (bool_decide (c = newline)).

(** [\d], on the ASCII digits. *)
Definition digit (c : ascii) : bool :=
  let n := nat_of_ascii c in (48 <=? n)%nat && (n <=? 57)%nat.

(** [[12]] *)
Definition one_or_two (c : ascii) : bool :=
  bool_decide (c = "1"%char) || bool_decide (c = "2"%char).

Definition lit (s : string) : regex := Lit (String.list_ascii_of_string s).

(** [.*denselayer\d+\.(?:norm|relu|conv)] *)
Definition group1 : regex :=
  Cat (Rep any_char)
   (Cat (lit "denselayer")
    (Cat (Cat (Cls digit) (Rep digit))
     (Cat (lit ".")
      (Alt (lit "norm") (Alt (lit "relu") (lit "conv")))))).

(** [(?:[12])\.(?:weight|bias|running_mean|running_var)] *)
Definition group2 : regex :=
  Cat (Cls one_or_two)
   (Cat (lit ".")
    (Alt (lit "weight")
     (Alt (lit "bias") (Alt (lit "running_mean") (lit "running_var"))))).

(** The backtracking matcher: the rests of [s] that [r] may leave after
    matching a prefix of it, in the order [re] tries them (repetition is
    greedy, alternatives go left to right). *)
Fixpoint strip_lit (l s : list ascii) : option (list ascii) :=
  match l, s with
  | [], _ => Some s
  | c :: l', c' :: s' => if bool_decide (c = c') then strip_lit l' s' else None
  | _ :: _, [] => None
  end.

Fixpoint rep_residuals (p : ascii → bool) (s : list ascii)
  : list (list ascii) :=
  match s with
  | c :: s' => if p c then rep_residuals p s' ++ [s] else [s]
  | [] => [[]]
  end.

Fixpoint residuals (r : regex) (s : list ascii) : list (list ascii) :=
  match r with
  | Lit l => match strip_lit l s with Some s' => [s'] | None => [] end
  | Cls p => match s with
             | c :: s' => if p c then [s'] else []
             | [] => []
             end
  | Rep p => rep_residuals p s
  | Cat r1 r2 => s' ← residuals r1 s; residuals r2 s'
  | Alt r1 r2 => residuals r1 s ++ residuals r2 s
  end.

(** [$] without MULTILINE: at the end, or before a final newline. *)
Definition at_dollar (s : list ascii) : bool :=
  bool_decide (s = []) || bool_decide (s = [newline]).

Fixpoint first_some {A B} (f : A → option B) (l : list A) : option B :=
  match l with
  | [] => None
  | x :: l' => match f x with Some y => Some y | None => first_some f l' end
  end.

(** [pattern.match(key)] for [^(group1)\.(group2)$]:
    [Some (res.group(1), res.group(2))] or [None]. *)
Definition pattern_match (key : string) : option (string * string) :=
  let s := String.list_ascii_of_string key in
  first_some
    (λ r1,
       match r1 with
       | c :: r1' =>
           if bool_decide (c = "."%char) then
             first_some
               (λ r2,
                  if at_dollar r2 then
                    Some (String.string_of_list_ascii
                            (take (length s - length r1) s),
                          String.string_of_list_ascii
                            (take (length r1' - length r2) r1'))
                  else None)
               (residuals group2 r1')
           else None
       | [] => None
       end)
    (residuals group1 s).

Example pattern_match_legacy :
  pattern_match "features.denseblock1.denselayer12.norm.1.weight"
  = Some ("features.denseblock1.denselayer12.norm", "1.weight").
Proof. vm_compute. reflexivity. Qed.

Example pattern_match_modern :
  pattern_match "features.denseblock1.denselayer12.norm1.weight" = None.
Proof. vm_compute. reflexivity. Qed.

Example pattern_match_other :
  pattern_match "features.conv0.weight" = None.
Proof. vm_compute. reflexivity. Qed.

(** ** Legacy densenet keys ([__set_transfer_learning_mode], lines 85-97) *)

Section remap.
Context {V : Type}.

(** One iteration of [for key in list(state_dict.keys())]. *)
Definition remap_step (state_dict : Dict.t V) (key : string)
  : result (Dict.t V) :=
  match pattern_match key with
  | Some (g1, g2) =>
      let new_key := g1 +:+ g2 in
      match Dict.get key state_dict with
      | Some v => Ok (Dict.del key (Dict.set new_key v state_dict))
      | None => Raise KeyError
      end
  | None => Ok state_dict
  end.

Fixpoint remap_loop (ks : list string) (state_dict : Dict.t V)
  : result (Dict.t V) :=
  match ks with
  | [] => Ok state_dict
  | key :: ks' =>
      match remap_step state_dict key with
      | Ok d => remap_loop ks' d
      | Raise e => Raise e
      end
  end.

Definition remap_legacy_keys (state_dict : Dict.t V) : result (Dict.t V) :=
  remap_loop (Dict.keys state_dict) state_dict.

End remap.

Example remap_legacy_keys_example :
  remap_legacy_keys
    [("features.conv0.weight", 0%nat);
     ("features.denseblock1.denselayer1.norm.1.weight", 1%nat);
     ("features.denseblock1.denselayer1.conv.2.weight", 2%nat);
     ("classifier.bias", 3%nat)]
  = Ok [("features.conv0.weight", 0%nat);
        ("classifier.bias", 3%nat);
        ("features.denseblock1.denselayer1.norm1.weight", 1%nat);
        ("features.denseblock1.denselayer1.conv2.weight", 2%nat)].
Proof. vm_compute. reflexivity. Qed.

(** *** What a match consists of *)

Lemma first_some_Some {A B} (f : A → option B) l y :
  first_some f l = Some y → ∃ x, x ∈ l ∧ f x = Some y.
Proof.
  induction l as [|x l IH]; simpl; [done|].
  destruct (f x) eqn:Hfx.
  - intros [= <-]. exists x. split; [left|done].
  - intros (x' & ? & ?)%IH. exists x'. split; [by right|done].
Qed.

Lemma first_some_None {A B} (f : A → option B) l :
  first_some f l = None ↔ ∀ x, x ∈ l → f x = None.
Proof.
  induction l as [|x l IH]; simpl.
  - split; [|done]. by intros _ x ?%elem_of_nil.
  - destruct (f x) eqn:Hfx.
    + split; [done|]. intros H. rewrite <- Hfx. apply H. left.
    + rewrite IH. split.
      * intros H x' [->|?]%elem_of_cons; auto.
      * intros H x' ?. apply H. by right.
Qed.

Lemma matches_Cat r1 r2 s :
  matches (Cat r1 r2) s = true ↔
  ∃ s1 s2, s = s1 ++ s2 ∧ matches r1 s1 = true ∧ matches r2 s2 = true.
Proof.
  cbn [matches]. rewrite existsb_exists. split.
  - intros (i & _ & [H1 H2]%andb_true_iff).
    exists (take i s), (drop i s). by rewrite take_drop.
  - intros (s1 & s2 & -> & H1 & H2). exists (length s1). split.
    + apply in_seq. rewrite length_app. lia.
    + by rewrite take_app_length, drop_app_length, H1, H2.
Qed.

Lemma matches_Alt r1 r2 s :
  matches (Alt r1 r2) s = true ↔ matches r1 s = true ∨ matches r2 s = true.
Proof. simpl. apply orb_true_iff. Qed.

Lemma matches_lit x s :
  matches (lit x) s = true ↔ s = String.list_ascii_of_string x.
Proof. unfold lit. simpl. apply bool_decide_eq_true. Qed.

Lemma matches_Cls p s :
  matches (Cls p) s = true ↔ ∃ c, s = [c] ∧ p c = true.
Proof.
  simpl. destruct s as [|c [|c' s]]; split; try done; try naive_solver.
Qed.

(** The stages a group-1 match may end with and the leaves a group-2
    match may end with, as character lists. *)
Definition stages : list (list ascii) :=
  String.list_ascii_of_string <$> ["norm"; "relu"; "conv"].

Definition leaves : list (list ascii) :=
  String.list_ascii_of_string
    <$> ["weight"; "bias"; "running_mean"; "running_var"].

Lemma group1_inv a :
  matches group1 a = true →
  ∃ pre stage, a = pre ++ stage ∧ stage ∈ stages.
Proof.
  unfold group1.
  intros (x & r1 & -> & _ & H)%matches_Cat.
  apply matches_Cat in H as (dl & r2 & -> & _ & H).
  apply matches_Cat in H as (ds & r3 & -> & _ & H).
  apply matches_Cat in H as (dot & st & -> & _ & H).
  exists (x ++ dl ++ ds ++ dot), st. split.
  - by rewrite <- !(assoc_L (++)).
  - unfold stages. simpl.
    apply matches_Alt in H as [H|H]; [|apply matches_Alt in H as [H|H]];
      apply matches_lit in H; subst; set_solver.
Qed.

Lemma group2_inv b :
  matches group2 b = true →
  ∃ d leaf, b = d :: "."%char :: leaf ∧ one_or_two d = true ∧ leaf ∈ leaves.
Proof.
  unfold group2.
  intros (x & r1 & -> & (d & -> & Hd)%matches_Cls & H)%matches_Cat.
  apply matches_Cat in H as (dot & lf & -> & ->%matches_lit & H).
  exists d, lf. split; [done|]. split; [done|].
  unfold leaves. simpl.
  apply matches_Alt in H as [H|H]; [|apply matches_Alt in H as [H|H];
    [|apply matches_Alt in H as [H|H]]];
    apply matches_lit in H; subst; set_solver.
Qed.

Lemma strip_lit_Some l s s' : strip_lit l s = Some s' → s = l ++ s'.
Proof.
  revert s. induction l as [|c l IH]; intros [|c' s]; simpl; try done.
  - by intros [= ->].
  - by intros [= ->].
  - case_bool_decide; [|done]. subst c'. by intros ->%IH.
Qed.

Lemma rep_residuals_sound p s x :
  x ∈ rep_residuals p s → ∃ m, s = m ++ x ∧ forallb p m = true.
Proof.
  induction s as [|c s IH]; simpl.
  - intros ->%list_elem_of_singleton. by exists [].
  - destruct (p c) eqn:Hc.
    + intros [Hx| ->%list_elem_of_singleton]%elem_of_app.
      * destruct (IH Hx) as (m & -> & Hm). exists (c :: m). simpl.
        by rewrite Hc, Hm.
      * by exists [].
    + intros ->%list_elem_of_singleton. by exists [].
Qed.

(** Every rest the matcher returns is what a match of [r] leaves. *)
Lemma residuals_sound r s x :
  x ∈ residuals r s → ∃ m, s = m ++ x ∧ matches r m = true.
Proof.
  revert s x. induction r as [l|p|p|r1 IH1 r2 IH2|r1 IH1 r2 IH2];
    intros s x; cbn [residuals].
  - destruct (strip_lit l s) as [s'|] eqn:Hs; [|by intros ?%elem_of_nil].
    intros ->%list_elem_of_singleton. exists l. split.
    + by apply strip_lit_Some.
    + simpl. by apply bool_decide_eq_true.
  - destruct s as [|c s]; [by intros ?%elem_of_nil|].
    destruct (p c) eqn:Hc; [|by intros ?%elem_of_nil].
    intros ->%list_elem_of_singleton. by exists [c].
  - apply rep_residuals_sound.
  - intros (s' & Hx & Hs')%list_elem_of_bind.
    destruct (IH1 _ _ Hs') as (m1 & -> & H1).
    destruct (IH2 _ _ Hx) as (m2 & -> & H2).
    exists (m1 ++ m2). split; [by rewrite (assoc_L (++))|].
    apply matches_Cat. eauto.
  - intros [Hx|Hx]%elem_of_app.
    + destruct (IH1 _ _ Hx) as (m & -> & H). exists m. split; [done|].
      apply matches_Alt. auto.
    + destruct (IH2 _ _ Hx) as (m & -> & H). exists m. split; [done|].
      apply matches_Alt. auto.
Qed.

Lemma at_dollar_inv t : at_dollar t = true → t = [] ∨ t = [newline].
Proof.
  unfold at_dollar.
  intros [H|H]%orb_true_iff; apply bool_decide_eq_true in H; auto.
Qed.

Lemma pattern_match_Some key g1 g2 :
  pattern_match key = Some (g1, g2) →
  ∃ a b t, String.list_ascii_of_string key = a ++ "."%char :: b ++ t
           ∧ (t = [] ∨ t = [newline])
           ∧ g1 = String.string_of_list_ascii a
           ∧ g2 = String.string_of_list_ascii b
           ∧ matches group1 a = true ∧ matches group2 b = true.
Proof.
  unfold pattern_match.
  intros (r1 & Hr1 & H)%first_some_Some.
  destruct r1 as [|c r1']; [done|].
  case_bool_decide as Hc; [subst c|done].
  apply first_some_Some in H as (r2 & Hr2 & H).
  destruct (at_dollar r2) eqn:Ht; [|done]. injection H as <- <-.
  apply residuals_sound in Hr1 as (a & Ha & H1).
  apply residuals_sound in Hr2 as (b & Hb & H2).
  exists a, b, r2. rewrite Ha, Hb.
  split; [done|]. split; [by apply at_dollar_inv|].
  rewrite !length_app. simpl. rewrite length_app.
  replace (length a + S (length b + length r2) - S (length b + length r2))%nat
    with (length a) by lia.
  replace (length b + length r2 - length r2)%nat with (length b) by lia.
  by rewrite !take_app_length.
Qed.

Lemma list_ascii_of_string_app s1 s2 :
  String.list_ascii_of_string (s1 +:+ s2)
  = String.list_ascii_of_string s1 ++ String.list_ascii_of_string s2.
Proof. induction s1 as [|c s1 IH]; simpl; [done|]. by rewrite IH. Qed.

(** Splitting at the last dot is unambiguous. *)
Lemma last_dot_split (l1 s1 l2 s2 : list ascii) :
  "."%char ∉ s1 → "."%char ∉ s2 →
  l1 ++ "."%char :: s1 = l2 ++ "."%char :: s2 → l1 = l2 ∧ s1 = s2.
Proof.
  intros Hs1 Hs2. revert l2.
  induction l1 as [|c l1 IH]; intros [|c' l2]; simpl.
  - by intros [= ->].
  - intros [= <- ->]. exfalso. apply Hs1. set_solver.
  - intros [= -> <-]. exfalso. apply Hs2. set_solver.
  - intros [= -> H]. by destruct (IH _ H) as [-> ->].
Qed.

Lemma leaves_no_dot leaf t :
  leaf ∈ leaves → t = [] ∨ t = [newline] → "."%char ∉ leaf ++ t.
Proof.
  unfold leaves. simpl. intros Hl Ht.
  assert ("."%char ∉ t) as Hnt.
  { destruct Ht as [-> | ->]; [by intros ?%elem_of_nil|].
    intros [= H]%list_elem_of_singleton. }
  intros [H|H]%elem_of_app; [|done].
  repeat (apply elem_of_cons in Hl as [-> | Hl];
          [revert H; by apply (bool_decide_unpack _)|]).
  by apply elem_of_nil in Hl.
Qed.

Lemma stage_not_dot_ended pre stage a :
  stage ∈ stages → pre ++ stage ≠ a ++ ["."%char].
Proof.
  unfold stages. simpl. intros Hs Heq.
  repeat (apply elem_of_cons in Hs as [-> | Hs];
          [simpl in Heq;
           rewrite (app_assoc pre [_; _; _] [_] : pre ++ [_; _; _; _] = _) in Heq;
           by apply app_inj_tail in Heq as [_ [=]]|]).
  by apply elem_of_nil in Hs.
Qed.

(** A key produced by the rewrite no longer matches the pattern. *)
Lemma rewritten_key_no_match key g1 g2 :
  pattern_match key = Some (g1, g2) → pattern_match (g1 +:+ g2) = None.
Proof.
  intros (a & b & _ & _ & _ & -> & -> & Ha & Hb)%pattern_match_Some.
  destruct (pattern_match _) as [[h1 h2]|] eqn:Hm; [exfalso|done].
  apply pattern_match_Some
    in Hm as (a' & b' & t' & Heq & Ht' & _ & _ & _ & Hb').
  rewrite list_ascii_of_string_app, !String.list_ascii_of_string_of_list_ascii
    in Heq.
  apply group1_inv in Ha as (pre & stage & -> & Hst).
  apply group2_inv in Hb as (d & leaf & -> & _ & Hleaf).
  apply group2_inv in Hb' as (d' & leaf' & -> & _ & Hleaf').
  assert (((pre ++ stage) ++ [d]) ++ "."%char :: (leaf ++ [])
          = (a' ++ ["."%char; d']) ++ "."%char :: (leaf' ++ t')) as Heq'.
  { rewrite app_nil_r, <- !(assoc_L (++)). simpl.
    rewrite <- !(assoc_L (++)) in Heq. exact Heq. }
  apply last_dot_split in Heq' as [Heq' _];
    [|apply leaves_no_dot; auto..].
  change (a' ++ ["."%char; d']) with (a' ++ ["."%char] ++ [d']) in Heq'.
  rewrite (assoc_L (++)) in Heq'.
  apply app_inj_tail in Heq' as [Heq' _].
  by apply stage_not_dot_ended in Heq'.
Qed.

(** *** The rewrite loop *)

Section remap_facts.
Context {V : Type}.
Implicit Types (d : Dict.t V) (ks : list string).

Lemma remap_loop_no_match ks d :
  (∀ k, k ∈ ks → pattern_match k = None) → remap_loop ks d = Ok d.
Proof.
  induction ks as [|k ks IH]; simpl; [done|]. intros H.
  unfold remap_step. rewrite (H k) by left. apply IH.
  intros k' ?. apply H. by right.
Qed.

(** While the snapshot [ks] is being walked, every matching key of the
    dictionary is still ahead in [ks], and every matching key ahead is
    still in the dictionary. *)
Lemma remap_loop_clears ks d :
  NoDup ks →
  (∀ k, k ∈ ks → pattern_match k ≠ None → k ∈ Dict.keys d) →
  (∀ k, k ∈ Dict.keys d → pattern_match k ≠ None → k ∈ ks) →
  ∃ d', remap_loop ks d = Ok d'
        ∧ ∀ k, k ∈ Dict.keys d' → pattern_match k = None.
Proof.
  revert d. induction ks as [|k ks IH]; intros d Hnd Hin Hout; simpl.
  - exists d. split; [done|]. intros k Hk.
    destruct (pattern_match k) eqn:Hm; [|done].
    exfalso. eapply elem_of_nil, Hout; [done|by rewrite Hm].
  - apply NoDup_cons in Hnd as [Hk Hnd]. unfold remap_step.
    destruct (pattern_match k) as [[g1 g2]|] eqn:Hm.
    + destruct (Dict.get_is_Some k d) as [v ->].
      { apply Hin; [left|by rewrite Hm]. }
      apply IH; [done|..].
      * intros k' Hk' Hm'. apply Dict.elem_of_keys_del. split.
        { intros ->. done. }
        apply Dict.elem_of_keys_set. right. apply Hin; [by right|done].
      * intros k' [Hne Hk']%Dict.elem_of_keys_del Hm'.
        apply Dict.elem_of_keys_set in Hk' as [->|Hk'].
        { exfalso. apply Hm'. by eapply rewritten_key_no_match. }
        apply Hout in Hk'; [|done].
        by apply elem_of_cons in Hk' as [->|?].
    + apply IH; [done|..].
      * intros k' Hk' Hm'. apply Hin; [by right|done].
      * intros k' Hk' Hm'. apply Hout in Hk' as Hk''; [|done].
        apply elem_of_cons in Hk'' as [->|?]; [|done]. by rewrite Hm in Hm'.
Qed.

End remap_facts.

(** C7. On a state dictionary (keys unique, as in every Python dict) the
    legacy densenet key rewrite returns a dictionary none of whose keys
    matches the dotted pattern any more, so a second application returns
    that dictionary unchanged: the key set after two applications is the
    key set after one. *)
Theorem remap_legacy_keys_fixed_point {V : Type} (state_dict : Dict.t V) :
  NoDup (Dict.keys state_dict) →
  ∃ d', remap_legacy_keys state_dict = Ok d'
        ∧ (∀ k, k ∈ Dict.keys d' → pattern_match k = None)
        ∧ remap_legacy_keys d' = Ok d'.
Proof.
  intros Hnd. unfold remap_legacy_keys.
  destruct (remap_loop_clears (Dict.keys state_dict) state_dict)
    as (d' & Hd' & Hclear); [done|auto..|].
  exists d'. split; [done|]. split; [done|].
  by apply remap_loop_no_match.
Qed.

Definition legacy_state_dict : Dict.t nat :=
  [("features.conv0.weight", 0%nat);
   ("features.denseblock1.denselayer1.norm.1.weight", 1%nat);
   ("features.denseblock1.denselayer1.norm.1.running_mean", 2%nat);
   ("features.denseblock1.denselayer1.conv.2.weight", 3%nat);
   ("classifier.bias", 4%nat)].

Lemma remap_legacy_keys_fixed_point_witness :
  ∃ d', remap_legacy_keys legacy_state_dict = Ok d'
        ∧ (∀ k, k ∈ Dict.keys d' → pattern_match k = None)
        ∧ remap_legacy_keys d' = Ok d'.
Proof.
  apply (remap_legacy_keys_fixed_point legacy_state_dict).
  apply (bool_decide_unpack _). vm_compute. exact I.
Defined.

(** ** Networks

    A tensor is represented by its shape; a parameter by its shape and
    its [requires_grad] flag.  A network is the dictionary of its named
    children; a child is a single layer or a [Sequential] of layers. *)

Definition shape := list nat.

Record Param := { p_shape : shape; requires_grad : bool }.

Inductive Layer :=
| Linear (in_features out_features : nat) (weight bias : Param)
| Opaque (ps : list (string * Param)) (bs : list (string * shape)).

Inductive Submodule :=
| Single (l : Layer)
| Sequential (ls : list Layer).

Definition Model := Dict.t Submodule.

(** [nn.Linear(in_features, out_features)]: a fresh layer, trainable. *)
Definition nn_Linear (in_features out_features : nat) : Layer :=
  Linear in_features out_features
    {| p_shape := [out_features; in_features]; requires_grad := true |}
    {| p_shape := [out_features]; requires_grad := true |}.

Definition layer_parameters (l : Layer) : list (string * Param) :=
  match l with
  | Linear _ _ w b => [("weight", w); ("bias", b)]
  | Opaque ps _ => ps
  end.

Definition layer_buffers (l : Layer) : list (string * shape) :=
  match l with
  | Linear _ _ _ _ => []
  | Opaque _ bs => bs
  end.

Definition module_layers (m : Submodule) : list Layer :=
  match m with
  | Single l => [l]
  | Sequential ls => ls
  end.

(** [model.parameters()] *)
Definition parameters (model : Model) : list Param :=
  m ← model.*2; l ← module_layers m; (layer_parameters l).*2.

Definition dotted {A} (prefix : string) (l : list (string * A))
  : list (string * A) :=
  prod_map (λ n, prefix +:+ "." +:+ n) id <$> l.

Definition module_state (m : Submodule) : list (string * shape) :=
  match m with
  | Single l => (prod_map id p_shape <$> layer_parameters l) ++ layer_buffers l
  | Sequential ls =>
      mjoin (imap (λ i l, dotted (pretty i)
                     ((prod_map id p_shape <$> layer_parameters l)
                      ++ layer_buffers l)) ls)
  end.

(** [model.state_dict()]: every parameter and buffer under its dotted name. *)
Definition state_dict_of (model : Model) : Dict.t shape :=
  '(name, m) ← model; dotted name (module_state m).

(** [param.requires_grad = False] on every parameter. *)
Definition freeze_parameter (p : Param) : Param :=
  {| p_shape := p_shape p; requires_grad := false |}.

Definition freeze_layer (l : Layer) : Layer :=
  match l with
  | Linear i o w b => Linear i o (freeze_parameter w) (freeze_parameter b)
  | Opaque ps bs => Opaque (prod_map id freeze_parameter <$> ps) bs
  end.

Definition freeze_module (m : Submodule) : Submodule :=
  match m with
  | Single l => Single (freeze_layer l)
  | Sequential ls => Sequential (freeze_layer <$> ls)
  end.

Definition freeze_all (model : Model) : Model :=
  prod_map id freeze_module <$> model.

(** [model.load_state_dict(state_dict)] (strict): every entry of the
    network must be given with its shape, and nothing else.  The values
    copied are opaque; the network's structure and flags are untouched. *)
Definition load_state_dict (model : Model) (state_dict : Dict.t shape)
  : result unit :=
  let own := state_dict_of model in
  if forallb (λ '(k, s), bool_decide (Dict.get k state_dict = Some s)) own
     && forallb (λ k, bool_decide (k ∈ Dict.keys own)) (Dict.keys state_dict)
  then Ok tt else Raise RuntimeError.

(** *** Attribute access *)

(** [model.<attr>] *)
Definition getattr (model : Model) (attr : string) : result Submodule :=
  match Dict.get attr model with
  | Some m => Ok m
  | None => Raise AttributeError
  end.

(** [<layer>.in_features] *)
Definition layer_in_features (l : Layer) : result nat :=
  match l with
  | Linear i _ _ _ => Ok i
  | Opaque _ _ => Raise AttributeError
  end.

(** ** Paths ([os.path], POSIX) *)

Definition sep : ascii := "/"%char.

Definition starts_with_sep (s : string) : bool :=
  match s with
  | String c _ => bool_decide (c = sep)
  | EmptyString => false
  end.

Definition ends_with_sep (s : string) : bool :=
  match reverse (String.list_ascii_of_string s) with
  | c :: _ => bool_decide (c = sep)
  | [] => false
  end.

(** [os.path.join(a, b)] *)
Definition os_path_join (a b : string) : string :=
  if starts_with_sep b then b
  else if bool_decide (a = "") || ends_with_sep a then a +:+ b
       else a +:+ "/" +:+ b.

Fixpoint drop_seps (l : list ascii) : list ascii :=
  match l with
  | c :: l' => if bool_decide (c = sep) then drop_seps l' else l
  | [] => []
  end.

Fixpoint until_sep (l : list ascii) : list ascii :=
  match l with
  | c :: l' => if bool_decide (c = sep) then [] else c :: until_sep l'
  | [] => []
  end.

(** [s.rstrip(os.path.sep)] *)
Definition rstrip_sep (s : string) : string :=
  String.string_of_list_ascii
    (reverse (drop_seps (reverse (String.list_ascii_of_string s)))).

(** [os.path.basename(p)] *)
Definition os_path_basename (p : string) : string :=
  String.string_of_list_ascii
    (reverse (until_sep (reverse (String.list_ascii_of_string p)))).

Example basename_of_data_dir :
  os_path_basename (rstrip_sep "/data/pets//") = "pets".
Proof. reflexivity. Qed.

(** ** The disk *)

Inductive content :=
| Json (d : Dict.t string)
| Weights (state_dict : Dict.t shape).

(** A directory is listed by its sub-folders, each with the number of
    image files it holds (what [ImageFolder] reads of it). *)
Record Disk := {
  dirs : gmap string (list (string * nat));
  files : gmap string content
}.

Inductive Event :=
| EvMkdir (path : string)
| EvDump (path : string) (d : Dict.t string)
| EvRemove (path : string)
| EvSave (path : string) (weights : Dict.t shape).

Definition os_path_isdir (d : Disk) (p : string) : bool :=
  bool_decide (is_Some (dirs d !! p)).

Definition os_path_exists (d : Disk) (p : string) : bool :=
  os_path_isdir d p || bool_decide (is_Some (files d !! p)).

Definition add_dir (p : string) (d : Disk) : Disk :=
  {| dirs := <[p := []]> (dirs d); files := files d |}.

Definition write_file (p : string) (c : content) (d : Disk) : Disk :=
  {| dirs := dirs d; files := <[p := c]> (files d) |}.

Definition remove_file (p : string) (d : Disk) : Disk :=
  {| dirs := dirs d; files := delete p (files d) |}.

(** ** Datasets ([torchvision.datasets.ImageFolder]) *)

(** [sorted(names)]: ascending in the order of [str], which compares
    code points (on UTF-8 bytes, the same order). *)
Definition sorted (names : list string) : list string :=
  merge_sort String.le names.

Record Dataset := { classes : list string; size : nat }.

(** The folder must exist, hold at least one class folder, and every
    class folder at least one image. *)
Definition ImageFolder (d : Disk) (root : string) : result Dataset :=
  match dirs d !! root with
  | None =>
      if bool_decide (is_Some (files d !! root))
      then Raise NotADirectoryError else Raise FileNotFoundError
  | Some entries =>
      if bool_decide (entries = []) then Raise FileNotFoundError
      else if existsb (λ e, bool_decide (e.2 = 0%nat)) entries
           then Raise FileNotFoundError
           else Ok {| classes := sorted entries.*1;
                      size := sum_list entries.*2 |}
  end.

(** ** The trainer *)

Record TrainParams (Mdl : Type) := {
  tp_model : Mdl;
  tp_lr : Q;
  tp_weight_decay : Q;
  tp_lr_decay_rate : option Q;
  tp_lr_step_size : option nat
}.
Arguments tp_model {Mdl}.
Arguments tp_lr {Mdl}.
Arguments tp_weight_decay {Mdl}.
Arguments tp_lr_decay_rate {Mdl}.
Arguments tp_lr_step_size {Mdl}.

Record Optimizer := {
  opt_lr : Q;
  opt_momentum : Q;
  opt_weight_decay : Q
}.

Record StepLR := { gamma : Q; step_size : nat }.

Record DataLoaders := {
  batch_size_of : nat;
  train_set : Dataset;
  test_set : Dataset
}.

(** The fields of [ClassificationModelTrainer]; [model] and the model of
    [training_params] are addresses of network objects in the heap. *)
Record Trainer := {
  model_type : string;
  data_dir : string;
  data_loaders : option DataLoaders;
  class_names : option (list string);
  dataset_sizes : option (nat * nat);
  dataset_name : string;
  model : option nat;
  optimizer : option Optimizer;
  lr_scheduler : option StepLR;
  transfer_learning_mode : string;
  model_path : string;
  training_params : option (TrainParams nat)
}.

(** [__init__] *)
Definition init : Trainer := {|
  model_type := "";
  data_dir := "";
  data_loaders := None;
  class_names := None;
  dataset_sizes := None;
  dataset_name := "";
  model := None;
  optimizer := None;
  lr_scheduler := None;
  transfer_learning_mode := "fine_tune_all";
  model_path := "";
  training_params := None
|}.

Record World := {
  self : Trainer;
  heap : list Model;
  disk : Disk;
  trace : list Event
}.

(** ** Computations that read and write the world and may raise *)

Definition M (A : Type) : Type := World → result A * World.

Definition ret {A} (a : A) : M A := λ w, (Ok a, w).

Definition bind {A B} (m : M A) (k : A → M B) : M B :=
  λ w, match m w with
       | (Ok a, w') => k a w'
       | (Raise e, w') => (Raise e, w')
       end.

Definition raise {A} (e : exn) : M A := λ w, (Raise e, w).

Definition lift {A} (r : result A) : M A := λ w, (r, w).

Notation "x <- c1 ;; c2" := (bind c1 (λ x, c2))
  (at level 100, c1 at next level, right associativity).
Notation "c1 ;; c2" := (bind c1 (λ _, c2))
  (at level 100, right associativity).

Definition get_self : M Trainer := λ w, (Ok (self w), w).

Definition get_disk : M Disk := λ w, (Ok (disk w), w).

Definition set_self (s : Trainer) : M unit :=
  λ w, (Ok tt, {| self := s; heap := heap w; disk := disk w;
                  trace := trace w |}).

(** A disk operation and the event it leaves in the trace. *)
Definition effect (f : Disk → Disk) (e : Event) : M unit :=
  λ w, (Ok tt, {| self := self w; heap := heap w; disk := f (disk w);
                  trace := trace w ++ [e] |}).

(** A new network object. *)
Definition alloc (m : Model) : M nat :=
  λ w, (Ok (length (heap w)),
        {| self := self w; heap := heap w ++ [m]; disk := disk w;
           trace := trace w |}).

Definition deref (a : nat) : M Model :=
  λ w, match heap w !! a with
       | Some m => (Ok m, w)
       | None => (Raise AttributeError, w)
       end.

Definition assign (a : nat) (m : Model) : M unit :=
  λ w, (Ok tt, {| self := self w; heap := <[a := m]> (heap w);
                  disk := disk w; trace := trace w |}).

Fixpoint foldM {A B} (f : A → B → M A) (l : list B) (a : A) : M A :=
  match l with
  | [] => ret a
  | b :: l' => a' <- f a b ;; foldM f l' a'
  end.

(** A value that must not be [None]. *)
Definition not_None {A} (o : option A) : M A :=
  match o with
  | Some a => ret a
  | None => raise TypeError
  end.

(** Truth value of an optional string argument ([None] and [""] are false). *)
Definition truthy (o : option string) : option string :=
  match o with
  | Some s => if decide (s = "") then None else Some s
  | None => None
  end.

(** *** Head replacement, in the two steps of the source: read
    [in_features] of the old head, then assign the new head. *)

Definition head_in_features (model_type : string) (m : Model) : result nat :=
  if decide (model_type = "mobilenet_v2") then
    match getattr m "classifier" with
    | Raise e => Raise e
    | Ok (Single _) => Raise TypeError
    | Ok (Sequential ls) =>
        match ls !! 1%nat with
        | None => Raise IndexError
        | Some l => layer_in_features l
        end
    end
  else
    let attr := if decide (model_type = "densenet121")
                then "classifier" else "fc" in
    match getattr m attr with
    | Raise e => Raise e
    | Ok (Sequential _) => Raise AttributeError
    | Ok (Single l) => layer_in_features l
    end.

Definition set_head (model_type : string) (m : Model) (head : Layer)
  : result Model :=
  if decide (model_type = "mobilenet_v2") then
    match getattr m "classifier" with
    | Raise e => Raise e
    | Ok (Single _) => Raise TypeError
    | Ok (Sequential ls) =>
        if decide (1 < length ls)%nat
        then Ok (Dict.set "classifier" (Sequential (<[1%nat := head]> ls)) m)
        else Raise IndexError
    end
  else if decide (model_type = "densenet121")
       then Ok (Dict.set "classifier" (Single head) m)
       else Ok (Dict.set "fc" (Single head) m).

(** ** Epoch metrics (lines 243-271) *)

Inductive Phase := train | test.

(** What one iteration of the batch loop sees: the labels of the batch
    (one per image), the predicted classes and the batch loss. *)
Record Batch := { labels : list nat; preds : list nat; loss : Q }.

(** [running_corrects] starts as the Python integer [0] and becomes a
    tensor with the first batch. *)
Inductive Corrects :=
| PyInt (n : nat)
| Tensor (n : nat).

Definition corrects_value (c : Corrects) : nat :=
  match c with PyInt n | Tensor n => n end.

(** [torch.sum(preds == labels.data)] *)
Definition count_correct (b : Batch) : nat :=
  length (filter (λ pl, pl.1 = pl.2) (zip (preds b) (labels b))).

Definition Qnat (n : nat) : Q := inject_Z (Z.of_nat n).

Definition batch_step (running : Q * Corrects) (b : Batch) : Q * Corrects :=
  (running.1 + loss b * Qnat (length (labels b)),
   Tensor (corrects_value running.2 + count_correct b))%Q.

(** [(epoch_loss, epoch_acc)] of one phase. *)
Definition epoch_metrics (bs : list Batch) (dataset_size : nat)
  : result (Q * Q) :=
  let running := fold_left batch_step bs (0%Q, PyInt 0) in
  if decide (dataset_size = 0%nat) then Raise ZeroDivisionError
  else match running.2 with
       | PyInt _ => Raise AttributeError
       | Tensor c =>
           Ok (running.1 / Qnat dataset_size, Qnat c / Qnat dataset_size)%Q
       end.

(** [x < y] on doubles. *)
Definition Qlt_bool (x y : Q) : bool := negb (Qle_bool y x).

(** ** Class-index mapping (lines 212-215) *)

Definition class_mapping_step (class_list : list string)
  (classes_dict : Dict.t string) (i : nat) : result (Dict.t string) :=
  match class_list !! i with
  | Some c => Ok (Dict.set (pretty i) c classes_dict)
  | None => Raise IndexError
  end.

Fixpoint class_mapping_loop (class_list : list string) (idx : list nat)
  (classes_dict : Dict.t string) : result (Dict.t string) :=
  match idx with
  | [] => Ok classes_dict
  | i :: idx' =>
      match class_mapping_step class_list classes_dict i with
      | Ok d => class_mapping_loop class_list idx' d
      | Raise e => Raise e
      end
  end.

Definition class_mapping (class_names : list string)
  : result (Dict.t string) :=
  let class_list := sorted class_names in
  class_mapping_loop class_list (seq 0 (length class_list)) [].

Example class_mapping_pets :
  class_mapping ["dog"; "cat"; "bird"]
  = Ok [("0", "bird"); ("1", "cat"); ("2", "dog")].
Proof. vm_compute. reflexivity. Qed.

(** ** Field assignments *)

Definition with_data_dir (s : Trainer) (d : string) : Trainer :=
  {| model_type := model_type s; data_dir := d;
     data_loaders := data_loaders s; class_names := class_names s;
     dataset_sizes := dataset_sizes s; dataset_name := dataset_name s;
     model := model s; optimizer := optimizer s;
     lr_scheduler := lr_scheduler s;
     transfer_learning_mode := transfer_learning_mode s;
     model_path := model_path s; training_params := training_params s |}.

Definition with_architecture (s : Trainer) (name : string)
  (tp : TrainParams nat) : Trainer :=
  {| model_type := name; data_dir := data_dir s;
     data_loaders := data_loaders s; class_names := class_names s;
     dataset_sizes := dataset_sizes s; dataset_name := dataset_name s;
     model := model s; optimizer := optimizer s;
     lr_scheduler := lr_scheduler s;
     transfer_learning_mode := transfer_learning_mode s;
     model_path := model_path s; training_params := Some tp |}.

Definition with_transfer_learning_mode (s : Trainer) (mode : string)
  : Trainer :=
  {| model_type := model_type s; data_dir := data_dir s;
     data_loaders := data_loaders s; class_names := class_names s;
     dataset_sizes := dataset_sizes s; dataset_name := dataset_name s;
     model := model s; optimizer := optimizer s;
     lr_scheduler := lr_scheduler s;
     transfer_learning_mode := mode;
     model_path := model_path s; training_params := training_params s |}.

Definition with_model_path (s : Trainer) (path : string) : Trainer :=
  {| model_type := model_type s; data_dir := data_dir s;
     data_loaders := data_loaders s; class_names := class_names s;
     dataset_sizes := dataset_sizes s; dataset_name := dataset_name s;
     model := model s; optimizer := optimizer s;
     lr_scheduler := lr_scheduler s;
     transfer_learning_mode := transfer_learning_mode s;
     model_path := path; training_params := training_params s |}.

Definition with_dataset (s : Trainer) (dl : DataLoaders) : Trainer :=
  {| model_type := model_type s; data_dir := data_dir s;
     data_loaders := Some dl;
     class_names := Some (classes (train_set dl));
     dataset_sizes := Some (size (train_set dl), size (test_set dl));
     dataset_name := os_path_basename (rstrip_sep (data_dir s));
     model := model s; optimizer := optimizer s;
     lr_scheduler := lr_scheduler s;
     transfer_learning_mode := transfer_learning_mode s;
     model_path := model_path s; training_params := training_params s |}.

Definition with_model (s : Trainer) (a : nat) : Trainer :=
  {| model_type := model_type s; data_dir := data_dir s;
     data_loaders := data_loaders s; class_names := class_names s;
     dataset_sizes := dataset_sizes s; dataset_name := dataset_name s;
     model := Some a; optimizer := optimizer s;
     lr_scheduler := lr_scheduler s;
     transfer_learning_mode := transfer_learning_mode s;
     model_path := model_path s; training_params := training_params s |}.

Definition with_optimizer (s : Trainer) (o : Optimizer)
  (sched : option StepLR) : Trainer :=
  {| model_type := model_type s; data_dir := data_dir s;
     data_loaders := data_loaders s; class_names := class_names s;
     dataset_sizes := dataset_sizes s; dataset_name := dataset_name s;
     model := model s; optimizer := Some o;
     lr_scheduler := sched;
     transfer_learning_mode := transfer_learning_mode s;
     model_path := model_path s; training_params := training_params s |}.

(** ** Disk operations of the trainer *)

Definition os_mkdir (p : string) : M unit := effect (add_dir p) (EvMkdir p).

(** [os.remove(p)] *)
Definition os_remove (p : string) : M unit :=
  d <- get_disk ;;
  match files d !! p with
  | Some _ => effect (remove_file p) (EvRemove p)
  | None => raise FileNotFoundError
  end.

(** [torch.save(weights, p)] *)
Definition torch_save (weights : Dict.t shape) (p : string) : M unit :=
  effect (write_file p (Weights weights)) (EvSave p weights).

(** [with open(p, "w") as f: ... json.dump(classes_dict, f)] *)
Definition json_dump (classes_dict : Dict.t string) (p : string) : M unit :=
  effect (write_file p (Json classes_dict)) (EvDump p classes_dict).

(** [torch.load(p)] *)
Definition torch_load (p : string) : M (Dict.t shape) :=
  d <- get_disk ;;
  match files d !! p with
  | Some (Weights state_dict) => ret state_dict
  | Some (Json _) => raise RuntimeError
  | None => raise FileNotFoundError
  end.

(** [self.__model.state_dict()] *)
Definition model_state_dict : M (Dict.t shape) :=
  s <- get_self ;;
  a <- not_None (model s) ;;
  m <- deref a ;;
  ret (state_dict_of m).

(** ** The methods of [ClassificationModelTrainer] *)

Section trainer.

(** [training_params.py]: the profile of each architecture, with the
    backbone network as the model zoo builds it. *)
Context (resnet50_train_params densenet121_train_params
         inception_v3_train_params mobilenet_v2_train_params
         : TrainParams Model).

(** The [:.5f] rendering of a double. *)
Context (format_5f : Q → string).

(** The batches each pass over a split yields, with what the network
    predicted on them: the data loader and the numerical engine. *)
Context (batches : nat → Phase → list Batch).

(** A call of [<arch>_train_params()]: the backbone is a new object. *)
Definition instantiate (tp : TrainParams Model) : M (TrainParams nat) :=
  a <- alloc (tp_model tp) ;;
  ret {| tp_model := a; tp_lr := tp_lr tp;
         tp_weight_decay := tp_weight_decay tp;
         tp_lr_decay_rate := tp_lr_decay_rate tp;
         tp_lr_step_size := tp_lr_step_size tp |}.

Definition setModelAsMobileNetV2 : M unit :=
  tp <- instantiate mobilenet_v2_train_params ;;
  s <- get_self ;;
  set_self (with_architecture s "mobilenet_v2" tp).

Definition setModelAsResNet50 : M unit :=
  tp <- instantiate resnet50_train_params ;;
  s <- get_self ;;
  set_self (with_architecture s "resnet50" tp).

Definition setModelAsInceptionV3 : M unit :=
  tp <- instantiate inception_v3_train_params ;;
  s <- get_self ;;
  set_self (with_architecture s "inception_v3" tp).

Definition setModelAsDenseNet121 : M unit :=
  tp <- instantiate densenet121_train_params ;;
  s <- get_self ;;
  set_self (with_architecture s "densenet121" tp).

Definition freezeAllLayers : M unit :=
  s <- get_self ;;
  set_self (with_transfer_learning_mode s "freeze_all").

Definition fineTuneAllLayers : M unit :=
  s <- get_self ;;
  set_self (with_transfer_learning_mode s "fine_tune_all").

Definition setDataDirectory (data_dir : string) : M unit :=
  d <- get_disk ;;
  if os_path_isdir d data_dir
  then s <- get_self ;; set_self (with_data_dir s data_dir)
  else raise ValueError.

(** [__load_data] *)
Definition load_data (batch_size : nat) : M unit :=
  s <- get_self ;;
  if decide (data_dir s = "") then raise RuntimeError
  else
    d <- get_disk ;;
    train_ds <- lift (ImageFolder d (os_path_join (data_dir s) "train")) ;;
    test_ds <- lift (ImageFolder d (os_path_join (data_dir s) "test")) ;;
    if decide (batch_size = 0%nat) then raise ValueError
    else set_self (with_dataset s {| batch_size_of := batch_size;
                                     train_set := train_ds;
                                     test_set := test_ds |}).

(** [__set_transfer_learning_mode] *)
Definition set_transfer_learning_mode : M unit :=
  s <- get_self ;;
  state_dict <- torch_load (model_path s) ;;
  state_dict <- (if decide (model_type s = "densenet121")
                 then lift (remap_legacy_keys state_dict)
                 else ret state_dict) ;;
  a <- not_None (model s) ;;
  m <- deref a ;;
  lift (load_state_dict m state_dict) ;;
  if decide (transfer_learning_mode s = "freeze_all")
  then assign a (freeze_all m)
  else ret tt.

Definition nonzero (q : option Q) : bool :=
  match q with
  | Some x => negb (Qeq_bool x 0)
  | None => false
  end.

(** [__set_training_param] *)
Definition set_training_param : M unit :=
  s <- get_self ;;
  if decide (model_type s = "") then raise RuntimeError
  else
    tp <- not_None (training_params s) ;;
    set_self (with_model s (tp_model tp)) ;;
    (if decide (model_path s = "") then ret tt
     else set_transfer_learning_mode) ;;
    m <- deref (tp_model tp) ;;
    in_features <- lift (head_in_features (model_type s) m) ;;
    names <- not_None (class_names s) ;;
    m' <- lift (set_head (model_type s) m
                  (nn_Linear in_features (length names))) ;;
    assign (tp_model tp) m' ;;
    s' <- get_self ;;
    set_self
      (with_optimizer s'
         {| opt_lr := tp_lr tp; opt_momentum := 9 # 10;
            opt_weight_decay := tp_weight_decay tp |}
         (match tp_lr_decay_rate tp, tp_lr_step_size tp with
          | Some g, Some (S n) =>
              if nonzero (Some g)
              then Some {| gamma := g; step_size := S n |}
              else lr_scheduler s'
          | _, _ => lr_scheduler s'
          end)).

(** *** The training loop (lines 221-284) *)

(** The local variables of [trainModel] that outlive an epoch. *)
Record Loop := {
  best_acc : Q;
  prev_save_name : string;
  recent_save_name : string;
  best_model_weights : Dict.t shape
}.

Definition save_name (model_type dataset_name : string) (acc : Q)
  (epoch : nat) : string :=
  model_type +:+ "-" +:+ dataset_name +:+ "-test_acc_" +:+ format_5f acc
  +:+ "_epoch-" +:+ pretty epoch +:+ ".pt".

(** The body of [if phase == "test" and epoch_acc > best_acc:]. *)
Definition save_checkpoint (model_directory : string) (epoch : nat)
  (epoch_acc : Q) (st : Loop) : M Loop :=
  s <- get_self ;;
  let best_acc := epoch_acc in
  let recent_save_name :=
    save_name (model_type s) (dataset_name s) best_acc epoch in
  (if decide (prev_save_name st = "") then ret tt
   else os_remove (os_path_join model_directory (prev_save_name st))) ;;
  best_model_weights <- model_state_dict ;;
  torch_save best_model_weights
    (os_path_join model_directory recent_save_name) ;;
  ret {| best_acc := best_acc; prev_save_name := recent_save_name;
         recent_save_name := recent_save_name;
         best_model_weights := best_model_weights |}.

(** The checkpoint consideration that ends a test phase. *)
Definition consider_checkpoint (model_directory : string) (epoch : nat)
  (epoch_acc : Q) (st : Loop) : M Loop :=
  if Qlt_bool (best_acc st) epoch_acc
  then save_checkpoint model_directory epoch epoch_acc st
  else ret st.

Definition split_size (phase : Phase) (sizes : nat * nat) : nat :=
  match phase with train => sizes.1 | test => sizes.2 end.

(** One phase of one epoch. *)
Definition run_phase (model_directory : string) (epoch : nat)
  (phase : Phase) (st : Loop) : M Loop :=
  s <- get_self ;;
  _ <- not_None (data_loaders s) ;;
  sizes <- not_None (dataset_sizes s) ;;
  metrics <- lift (epoch_metrics (batches epoch phase)
                     (split_size phase sizes)) ;;
  match phase with
  | test => consider_checkpoint model_directory epoch metrics.2 st
  | train => ret st
  end.

Definition run_epoch (model_directory : string) (st : Loop) (epoch : nat)
  : M Loop :=
  st' <- run_phase model_directory epoch train st ;;
  run_phase model_directory epoch test st'.

(** Lines 203-284 of [trainModel]: the output directory, the class
    mapping, and the loop over the epochs. *)
Definition persist_and_train (num_experiments : nat)
  (model_directory : option string) : M Loop :=
  s <- get_self ;;
  let model_directory :=
    match truthy model_directory with
    | Some dir => dir
    | None => os_path_join (data_dir s) "models"
    end in
  d <- get_disk ;;
  (if os_path_exists d model_directory then ret tt
   else os_mkdir model_directory) ;;
  names <- not_None (class_names s) ;;
  classes_dict <- lift (class_mapping names) ;;
  json_dump classes_dict
    (os_path_join model_directory
       (dataset_name s +:+ "_model_classes.json")) ;;
  best_model_weights <- model_state_dict ;;
  foldM (run_epoch model_directory) (seq 0 num_experiments)
    {| best_acc := 0; prev_save_name := ""; recent_save_name := "";
       best_model_weights := best_model_weights |}.

(** [trainModel]; the value returned is the final state of the loop's
    locals (Python returns [None] after printing [best_acc]). *)
Definition trainModel (num_experiments batch_size : nat)
  (model_directory transfer_from_model : option string) : M Loop :=
  load_data batch_size ;;
  (match truthy transfer_from_model with
   | Some path => s <- get_self ;; set_self (with_model_path s path)
   | None => ret tt
   end) ;;
  set_training_param ;;
  persist_and_train num_experiments model_directory.

End trainer.

(** * Properties

    ** Epoch metrics *)


Definition correct_sum (bs : list Batch) : nat :=
  sum_list (count_correct <$> bs).






Lemma fold_batch_step_tensor bs r :
  bs ≠ [] → ∃ c, (fold_left batch_step bs r).2 = Tensor c.
Proof.
  revert r. induction bs as [|b bs IH]; intros r Hne; [done|]. simpl.
  destruct bs as [|b' bs]; [simpl; eauto|]. by apply IH.
Qed.





Definition three_examples : list Batch :=
  [{| labels := [0; 1]; preds := [0; 0]; loss := 1 # 2 |};
   {| labels := [1]; preds := [1]; loss := 1 # 4 |}]%nat.


(** Dividing by the number of batches would give another value. *)
Example epoch_metrics_not_per_batch :
  ∃ epoch_loss epoch_acc,
    epoch_metrics three_examples 3 = Ok (epoch_loss, epoch_acc)
    ∧ ¬ (epoch_acc == Qnat (correct_sum three_examples)
                      / Qnat (length three_examples))%Q.
Proof. eexists _, _. split; [reflexivity|]. by vm_compute. Qed.

(** ** Class-index mapping *)

Lemma dict_set_fresh {V} (k : string) (v : V) (d : Dict.t V) :
  k ∉ Dict.keys d → Dict.set k v d = d ++ [(k, v)].
Proof.
  unfold Dict.keys. induction d as [|[k' v'] d IH]; simpl; [done|].
  intros Hk. case_decide as Heq.
  - subst. exfalso. apply Hk. left.
  - rewrite IH; [done|]. intros ?. apply Hk. by right.
Qed.

Definition index_keys (n : nat) : list string := pretty <$> seq 0 n.

Lemma index_keys_fresh k : pretty k ∉ index_keys k.
Proof.
  unfold index_keys. intros (i & Hi%(inj pretty) & Hin)%list_elem_of_fmap.
  subst i. apply elem_of_seq in Hin. lia.
Qed.

Lemma class_mapping_loop_zip (cl : list string) (m k : nat) :
  (k + m = length cl)%nat →
  class_mapping_loop cl (seq k m) (zip (index_keys k) (take k cl))
  = Ok (zip (index_keys (length cl)) cl).
Proof.
  revert k. induction m as [|m IH]; intros k Hk; simpl.
  - replace k with (length cl) by lia. by rewrite firstn_all.
  - unfold class_mapping_step.
    destruct (lookup_lt_is_Some_2 cl k) as [c Hc]; [lia|]. rewrite Hc.
    rewrite dict_set_fresh.
    + replace (zip (index_keys k) (take k cl) ++ [(pretty k, c)])
        with (zip (index_keys (S k)) (take (S k) cl)); [apply IH; lia|].
      unfold index_keys. rewrite seq_S, fmap_app, (take_S_r _ _ c) by done.
      simpl. rewrite zip_with_app; [done|].
      rewrite length_fmap, length_seq, length_take. lia.
    + unfold Dict.keys. rewrite fst_zip; [apply index_keys_fresh|].
      unfold index_keys. rewrite length_fmap, length_seq, length_take. lia.
Qed.

Lemma sorted_Permutation names : sorted names ≡ₚ names.
Proof. apply merge_sort_Permutation. Qed.

Lemma sorted_Sorted names : Sorted String.le (sorted names).
Proof. apply (Sorted_merge_sort String.le). Qed.

(** Any ascending arrangement of the names is [sorted names]. *)
Lemma sorted_unique names l :
  Sorted String.le l → l ≡ₚ names → l = sorted names.
Proof.
  intros Hl Hp. apply (Sorted_unique String.le); [done|apply sorted_Sorted|].
  by rewrite Hp, sorted_Permutation.
Qed.

Lemma class_mapping_zip names :
  class_mapping names = Ok (zip (index_keys (length names)) (sorted names)).
Proof.
  unfold class_mapping.
  rewrite <- (Permutation_length (sorted_Permutation names)).
  apply (class_mapping_loop_zip (sorted names) _ 0%nat). lia.
Qed.

(** C8. The mapping written for a set of class names does not depend on
    the order in which the class folders were discovered. *)
Theorem class_mapping_order_invariant (names1 names2 : list string) :
  names1 ≡ₚ names2 → class_mapping names1 = class_mapping names2.
Proof.
  intros Hp. rewrite !class_mapping_zip.
  rewrite (Permutation_length Hp). do 2 f_equal.
  symmetry. apply sorted_unique; [apply sorted_Sorted|].
  by rewrite sorted_Permutation.
Qed.

Lemma class_mapping_order_invariant_witness :
  class_mapping ["dog"; "cat"; "bird"] = class_mapping ["bird"; "dog"; "cat"].
Proof.
  apply (class_mapping_order_invariant ["dog"; "cat"; "bird"]
           ["bird"; "dog"; "cat"]).
  apply (bool_decide_unpack _). vm_compute. exact I.
Defined.

(** ** Running the methods *)

Arguments set_head : simpl never.
Arguments head_in_features : simpl never.
Arguments load_state_dict : simpl never.
Arguments remap_legacy_keys : simpl never.
Arguments class_mapping : simpl never.
Arguments ImageFolder : simpl never.
Arguments epoch_metrics : simpl never.
Arguments os_path_join : simpl never.
Arguments os_path_exists : simpl never.
Arguments save_name : simpl never.
Arguments state_dict_of : simpl never.
Arguments freeze_all : simpl never.

Ltac unfold_M :=
  unfold bind, ret, raise, lift, get_self, get_disk, set_self, effect,
    alloc, deref, assign, not_None in *.

Lemma bind_Ok {A B} (m : M A) (k : A → M B) w a w' :
  m w = (Ok a, w') → bind m k w = k a w'.
Proof. unfold bind. by intros ->. Qed.

Lemma bind_Raise {A B} (m : M A) (k : A → M B) w e w' :
  m w = (Raise e, w') → bind m k w = (Raise e, w').
Proof. unfold bind. by intros ->. Qed.

Lemma world_eta w :
  {| self := self w; heap := heap w; disk := disk w; trace := trace w |} = w.
Proof. by destruct w. Qed.

Definition set_world_self (w : World) (s : Trainer) : World :=
  {| self := s; heap := heap w; disk := disk w; trace := trace w |}.

Lemma load_data_run batch_size w :
  load_data batch_size w =
  if decide (data_dir (self w) = "") then (Raise RuntimeError, w)
  else match ImageFolder (disk w) (os_path_join (data_dir (self w)) "train") with
       | Raise e => (Raise e, w)
       | Ok train_ds =>
           match ImageFolder (disk w)
                   (os_path_join (data_dir (self w)) "test") with
           | Raise e => (Raise e, w)
           | Ok test_ds =>
               if decide (batch_size = 0%nat) then (Raise ValueError, w)
               else (Ok tt,
                     set_world_self w
                       (with_dataset (self w)
                          {| batch_size_of := batch_size;
                             train_set := train_ds; test_set := test_ds |}))
           end
       end.
Proof.
  unfold load_data. unfold_M. simpl.
  destruct (decide (data_dir (self w) = "")); [done|]. simpl.
  destruct (ImageFolder _ _); [|done].
  destruct (ImageFolder _ _); [|done].
  by destruct (decide (batch_size = 0%nat)).
Qed.

(** *** [__set_training_param], as a function of the backbone *)

(** The network after the transfer stage: untouched without a stored
    checkpoint path; otherwise loaded, and frozen in mode [freeze_all]. *)
Definition transferred (s : Trainer) (d : Disk) (m : Model) : result Model :=
  if decide (model_path s = "") then Ok m
  else
    match files d !! model_path s with
    | None => Raise FileNotFoundError
    | Some (Json _) => Raise RuntimeError
    | Some (Weights state_dict) =>
        match (if decide (model_type s = "densenet121")
               then remap_legacy_keys state_dict else Ok state_dict) with
        | Raise e => Raise e
        | Ok state_dict' =>
            match load_state_dict m state_dict' with
            | Raise e => Raise e
            | Ok _ =>
                Ok (if decide (transfer_learning_mode s = "freeze_all")
                    then freeze_all m else m)
            end
        end
    end.

(** The network after head replacement. *)
Definition rebuilt (s : Trainer) (d : Disk) (m : Model) (n : nat)
  : result Model :=
  match transferred s d m with
  | Raise e => Raise e
  | Ok m1 =>
      match head_in_features (model_type s) m1 with
      | Raise e => Raise e
      | Ok in_features =>
          set_head (model_type s) m1 (nn_Linear in_features n)
      end
  end.

Definition new_scheduler (tp : TrainParams nat) (old : option StepLR)
  : option StepLR :=
  match tp_lr_decay_rate tp, tp_lr_step_size tp with
  | Some g, Some (S n) =>
      if nonzero (Some g) then Some {| gamma := g; step_size := S n |}
      else old
  | _, _ => old
  end.

Lemma set_transfer_learning_mode_run w a m m1 :
  model_path (self w) ≠ "" →
  model (self w) = Some a → heap w !! a = Some m →
  transferred (self w) (disk w) m = Ok m1 →
  ∃ h, set_transfer_learning_mode w
       = (Ok tt, {| self := self w; heap := h; disk := disk w;
                    trace := trace w |})
       ∧ h !! a = Some m1 ∧ ∀ m', <[a := m']> h = <[a := m']> (heap w).
Proof.
  intros Hpath Ha Hm. unfold transferred, set_transfer_learning_mode, torch_load.
  destruct (decide (model_path (self w) = "")); [done|].
  unfold_M. simpl.
  destruct (files (disk w) !! model_path (self w)) as [[?|sd]|]; [done| |done].
  destruct (decide (model_type (self w) = "densenet121")); simpl.
  - destruct (remap_legacy_keys sd) as [sd'|]; [|done]. rewrite Ha. simpl.
    rewrite Hm. destruct (load_state_dict m sd'); [|done].
    destruct (decide (transfer_learning_mode (self w) = "freeze_all"));
      intros [= <-].
    + exists (<[a := freeze_all m]> (heap w)). split; [done|].
      split; [|intros; apply list_insert_insert_eq].
      apply list_lookup_insert_eq. by eapply lookup_lt_Some.
    + exists (heap w). by rewrite world_eta.
  - rewrite Ha. simpl.
    rewrite Hm. destruct (load_state_dict m sd); [|done].
    destruct (decide (transfer_learning_mode (self w) = "freeze_all"));
      intros [= <-].
    + exists (<[a := freeze_all m]> (heap w)). split; [done|].
      split; [|intros; apply list_insert_insert_eq].
      apply list_lookup_insert_eq. by eapply lookup_lt_Some.
    + exists (heap w). by rewrite world_eta.
Qed.

Lemma set_training_param_run w tp m names m' :
  model_type (self w) ≠ "" →
  training_params (self w) = Some tp →
  heap w !! tp_model tp = Some m →
  class_names (self w) = Some names →
  rebuilt (self w) (disk w) m (length names) = Ok m' →
  set_training_param w
  = (Ok tt,
     {| self := with_optimizer (with_model (self w) (tp_model tp))
                  {| opt_lr := tp_lr tp; opt_momentum := 9 # 10;
                     opt_weight_decay := tp_weight_decay tp |}
                  (new_scheduler tp (lr_scheduler (self w)));
        heap := <[tp_model tp := m']> (heap w);
        disk := disk w; trace := trace w |}).
Proof.
  intros Hmt Htp Hm Hnames. unfold rebuilt.
  destruct (transferred (self w) (disk w) m) as [m1|] eqn:Htr; [|done].
  destruct (head_in_features (model_type (self w)) m1) as [f|] eqn:Hf; [|done].
  intros Hset. unfold set_training_param.
  rewrite (bind_Ok get_self _ w (self w) w) by done.
  destruct (decide (model_type (self w) = "")); [done|].
  rewrite (bind_Ok _ _ w tp w) by (by rewrite Htp).
  erewrite bind_Ok by reflexivity.
  set (w1 := set_world_self w (with_model (self w) (tp_model tp))).
  destruct (decide (model_path (self w) = "")) as [Hp|Hp].
  - unfold transferred in Htr. rewrite decide_True in Htr by done.
    injection Htr as <-.
    unfold_M. simpl. rewrite Hm, Hf. simpl. rewrite Hnames. simpl.
    by rewrite Hset.
  - destruct (set_transfer_learning_mode_run w1 (tp_model tp) m m1)
      as (h & Hrun & Hh & Hins); [done..|].
    erewrite bind_Ok by exact Hrun.
    unfold_M. simpl. rewrite Hh, Hf. simpl. rewrite Hnames. simpl.
    rewrite Hset. by rewrite Hins.
Qed.

(** ** The head and the body of a network *)

(** The classification head, where the architecture keeps it. *)
Definition head_of (model_type : string) (m : Model) : option Layer :=
  if decide (model_type = "mobilenet_v2") then
    match Dict.get "classifier" m with
    | Some (Sequential ls) => ls !! 1%nat
    | _ => None
    end
  else
    match Dict.get (if decide (model_type = "densenet121")
                    then "classifier" else "fc") m with
    | Some (Single l) => Some l
    | _ => None
    end.

Definition child_parameters (c : Submodule) : list Param :=
  l ← module_layers c; (layer_parameters l).*2.

(** The parameters outside the head: those of the network once its head
    is replaced by a layer without parameters. *)
Definition body_parameters (model_type : string) (m : Model) : list Param :=
  match set_head model_type m (Opaque [] []) with
  | Ok m0 => parameters m0
  | Raise _ => parameters m
  end.

Definition trainable (p : Param) : Prop := requires_grad p = true.

Lemma dict_get_set {V} k (v : V) d : Dict.get k (Dict.set k v d) = Some v.
Proof.
  induction d as [|[k' v'] d IH]; simpl.
  - by rewrite decide_True.
  - destruct (decide (k' = k)) as [->|Hk]; simpl.
    + by rewrite decide_True.
    + by rewrite decide_False.
Qed.

Lemma dict_get_set_ne {V} k k' (v : V) d :
  k ≠ k' → Dict.get k' (Dict.set k v d) = Dict.get k' d.
Proof.
  intros Hne. induction d as [|[k0 v0] d IH]; simpl.
  - by rewrite decide_False.
  - destruct (decide (k0 = k)) as [->|]; simpl.
    + by rewrite !decide_False by done.
    + by rewrite IH.
Qed.

Lemma dict_set_set {V} k (v1 v2 : V) d :
  Dict.set k v2 (Dict.set k v1 d) = Dict.set k v2 d.
Proof.
  induction d as [|[k' v'] d IH]; simpl.
  - by rewrite decide_True.
  - destruct (decide (k' = k)) as [->|Hk]; simpl.
    + by rewrite decide_True.
    + by rewrite decide_False, IH.
Qed.

Lemma dict_get_fmap {V W} (f : V → W) k (d : Dict.t V) :
  Dict.get k (prod_map id f <$> d) = f <$> Dict.get k d.
Proof.
  induction d as [|[k' v'] d IH]; csimpl; [done|]. by case_decide.
Qed.

Lemma dict_set_fmap {V W} (f : V → W) k v (d : Dict.t V) :
  Dict.set k (f v) (prod_map id f <$> d) = prod_map id f <$> Dict.set k v d.
Proof.
  induction d as [|[k' v'] d IH]; csimpl; [done|].
  case_decide; csimpl; [done|]. by rewrite IH.
Qed.

(** A present key splits the dictionary around its first occurrence. *)
Lemma dict_get_split {V} k (c : V) d :
  Dict.get k d = Some c →
  ∃ d1 d2, d = d1 ++ (k, c) :: d2
           ∧ ∀ v, Dict.set k v d = d1 ++ (k, v) :: d2.
Proof.
  induction d as [|[k' v'] d IH]; simpl; [done|].
  destruct (decide (k' = k)) as [->|Hne].
  - intros [= ->]. exists [], d. split; [done|]. intros v. done.
  - intros (d1 & d2 & -> & Hset)%IH. exists ((k', v') :: d1), d2.
    split; [done|]. intros v. simpl. by rewrite Hset.
Qed.

Lemma parameters_app m1 m2 :
  parameters (m1 ++ m2) = parameters m1 ++ parameters m2.
Proof. unfold parameters. by rewrite fmap_app, bind_app. Qed.

Lemma parameters_cons k c m :
  parameters ((k, c) :: m) = child_parameters c ++ parameters m.
Proof. done. Qed.

Lemma parameters_set k c m :
  Dict.get k m = Some c →
  ∃ ps1 ps2,
    parameters m = ps1 ++ child_parameters c ++ ps2
    ∧ ∀ v, parameters (Dict.set k v m) = ps1 ++ child_parameters v ++ ps2.
Proof.
  intros (d1 & d2 & -> & Hset)%dict_get_split.
  exists (parameters d1), (parameters d2).
  split; [by rewrite !parameters_app, !parameters_cons|].
  intros v. by rewrite Hset, !parameters_app, !parameters_cons.
Qed.

Lemma parameters_set_new k v m :
  Dict.get k m = None →
  parameters (Dict.set k v m) = parameters m ++ child_parameters v.
Proof.
  intros Hk. assert (k ∉ Dict.keys m) as Hnk.
  { intros [c Hc]%Dict.get_is_Some. congruence. }
  rewrite dict_set_fresh by done.
  rewrite parameters_app, parameters_cons. simpl. by rewrite app_nil_r.
Qed.

Lemma child_parameters_insert ls i l :
  ls !! i = Some l →
  ∃ ps1 ps2,
    child_parameters (Sequential ls)
    = ps1 ++ (layer_parameters l).*2 ++ ps2
    ∧ ∀ l', child_parameters (Sequential (<[i := l']> ls))
            = ps1 ++ (layer_parameters l').*2 ++ ps2.
Proof.
  intros Hl. unfold child_parameters. simpl.
  exists (x ← take i ls; (layer_parameters x).*2),
         (x ← drop (S i) ls; (layer_parameters x).*2).
  split.
  - rewrite <- (take_drop_middle ls i l) at 1 by done.
    by rewrite !bind_app, !bind_cons.
  - intros l'. rewrite insert_take_drop by (by eapply lookup_lt_Some).
    by rewrite !bind_app, !bind_cons.
Qed.

Lemma getattr_Ok m attr c : getattr m attr = Ok c ↔ Dict.get attr m = Some c.
Proof. unfold getattr. destruct (Dict.get attr m); naive_solver. Qed.

Lemma child_parameters_Single l :
  child_parameters (Single l) = (layer_parameters l).*2.
Proof. unfold child_parameters. simpl. by rewrite app_nil_r. Qed.

(** Where [in_features] can be read there is a linear head, and the
    parameters of the network are those around the head plus the head's;
    assigning a new head succeeds and changes the head's part only. *)
Lemma head_split model_type m f :
  head_in_features model_type m = Ok f →
  ∃ old ps1 ps2,
    head_of model_type m = Some old
    ∧ layer_in_features old = Ok f
    ∧ parameters m = ps1 ++ (layer_parameters old).*2 ++ ps2
    ∧ ∀ l, ∃ m', set_head model_type m l = Ok m'
                 ∧ head_of model_type m' = Some l
                 ∧ parameters m' = ps1 ++ (layer_parameters l).*2 ++ ps2
                 ∧ ∀ l', set_head model_type m' l' = set_head model_type m l'.
Proof.
  unfold head_in_features, head_of, set_head.
  destruct (decide (model_type = "mobilenet_v2")) as [Hmob|Hmob].
  - destruct (getattr m "classifier") as [[l0|ls]|] eqn:Hget; try done.
    apply getattr_Ok in Hget. rewrite Hget.
    destruct (ls !! 1%nat) as [l0|] eqn:Hl0; [|done]. intros Hf.
    destruct (parameters_set "classifier" (Sequential ls) m Hget)
      as (ps1 & ps2 & Hps & Hps').
    destruct (child_parameters_insert ls 1 l0 Hl0) as (qs1 & qs2 & Hqs & Hqs').
    exists l0, (ps1 ++ qs1), (qs2 ++ ps2). split; [done|]. split; [done|].
    split; [by rewrite Hps, Hqs, <- !(assoc_L (++))|]. intros l.
    assert (1 < length ls)%nat as Hlen by (by eapply lookup_lt_Some).
    rewrite decide_True by done. eexists. split; [done|].
    rewrite dict_get_set. split.
    { by apply list_lookup_insert_eq. }
    split.
    + by rewrite Hps', Hqs', <- !(assoc_L (++)).
    + intros l'. unfold getattr. rewrite dict_get_set, length_insert.
      by rewrite dict_set_set, list_insert_insert_eq.
  - set (attr := if decide (model_type = "densenet121")
                 then "classifier" else "fc").
    destruct (getattr m attr) as [[l0|ls]|] eqn:Hget; try done.
    apply getattr_Ok in Hget. rewrite Hget. intros Hf.
    destruct (parameters_set attr (Single l0) m Hget)
      as (ps1 & ps2 & Hps & Hps').
    exists l0, ps1, ps2. split; [done|]. split; [done|].
    split; [by rewrite Hps, child_parameters_Single|]. intros l.
    exists (Dict.set attr (Single l) m). subst attr.
    destruct (decide (model_type = "densenet121")).
    + split; [done|]. rewrite dict_get_set. split; [done|].
      split; [by rewrite Hps', child_parameters_Single|].
      intros l'. by rewrite dict_set_set.
    + split; [done|]. rewrite dict_get_set. split; [done|].
      split; [by rewrite Hps', child_parameters_Single|].
      intros l'. by rewrite dict_set_set.
Qed.

Lemma body_parameters_subseteq model_type m f :
  head_in_features model_type m = Ok f →
  body_parameters model_type m ⊆ parameters m.
Proof.
  intros (old & ps1 & ps2 & _ & _ & -> & Hset)%head_split.
  unfold body_parameters.
  destruct (Hset (Opaque [] [])) as (m0 & -> & _ & -> & _). simpl.
  set_solver.
Qed.

Lemma body_parameters_set_head model_type m f l m' :
  head_in_features model_type m = Ok f →
  set_head model_type m l = Ok m' →
  body_parameters model_type m' = body_parameters model_type m.
Proof.
  intros (old & ps1 & ps2 & _ & _ & _ & Hset)%head_split Hm'.
  destruct (Hset l) as (m'' & Hm'' & _ & _ & Hagain).
  rewrite Hm' in Hm''. injection Hm'' as <-.
  unfold body_parameters. rewrite Hagain.
  by destruct (Hset (Opaque [] [])) as (m0 & -> & _ & _ & _).
Qed.

Lemma parameters_freeze_all m :
  parameters (freeze_all m) = freeze_parameter <$> parameters m.
Proof.
  unfold freeze_all. induction m as [|[k c] m IH]; csimpl; [done|].
  rewrite !parameters_cons, IH, fmap_app. f_equal.
  unfold child_parameters. destruct c as [l|ls]; simpl.
  - rewrite !app_nil_r. destruct l as [i o w b|ps bs]; csimpl; [done|].
    rewrite <- !list_fmap_compose. by apply list_fmap_ext.
  - induction ls as [|l ls IHls]; csimpl; [done|].
    rewrite IHls, fmap_app. f_equal.
    destruct l as [i o w b|ps bs]; csimpl; [done|].
    rewrite <- !list_fmap_compose. by apply list_fmap_ext.
Qed.

Lemma head_in_features_freeze_all model_type m :
  head_in_features model_type (freeze_all m) = head_in_features model_type m.
Proof.
  unfold head_in_features, getattr, freeze_all.
  destruct (decide (model_type = "mobilenet_v2")).
  - rewrite dict_get_fmap. destruct (Dict.get "classifier" m) as [[l|ls]|];
      simpl; [done| |done].
    rewrite list_lookup_fmap. destruct (ls !! 1%nat) as [[]|]; done.
  - rewrite dict_get_fmap. destruct (Dict.get _ m) as [[[]|ls]|]; done.
Qed.

(** ** What a computation leaves unchanged *)

Definition keeps {A} (R : relation World) (m : M A) : Prop :=
  ∀ w, R w (m w).2.

Section keeps.
Context (R : relation World) `{!PreOrder R}.

Lemma keeps_ret {A} (a : A) : keeps R (ret a).
Proof. intros w. simpl. reflexivity. Qed.

Lemma keeps_raise {A} e : keeps R (@raise A e).
Proof. intros w. simpl. reflexivity. Qed.

Lemma keeps_lift {A} (r : result A) : keeps R (lift r).
Proof. intros w. simpl. reflexivity. Qed.

Lemma keeps_get_self : keeps R get_self.
Proof. intros w. simpl. reflexivity. Qed.

Lemma keeps_get_disk : keeps R get_disk.
Proof. intros w. simpl. reflexivity. Qed.

Lemma keeps_not_None {A} (o : option A) : keeps R (not_None o).
Proof. destruct o; [apply keeps_ret|apply keeps_raise]. Qed.

Lemma keeps_bind {A B} (m : M A) (k : A → M B) :
  keeps R m → (∀ a, keeps R (k a)) → keeps R (bind m k).
Proof.
  intros Hm Hk w. unfold bind. specialize (Hm w).
  destruct (m w) as [[a|e] w1]; simpl in *; [|done].
  etrans; [done|]. apply Hk.
Qed.

Lemma keeps_foldM {A B} (f : A → B → M A) l a :
  (∀ a b, keeps R (f a b)) → keeps R (foldM f l a).
Proof.
  intros Hf. revert a. induction l as [|b l IH]; intros a; simpl.
  - apply keeps_ret.
  - apply keeps_bind; [apply Hf|apply IH].
Qed.

End keeps.

Ltac keeps_step :=
  lazymatch goal with
  | |- keeps _ (bind _ _) => apply keeps_bind; [tc_solve| |intros]
  | |- keeps _ (ret _) => apply keeps_ret; tc_solve
  | |- keeps _ (raise _) => apply keeps_raise; tc_solve
  | |- keeps _ (lift _) => apply keeps_lift; tc_solve
  | |- keeps _ get_self => apply keeps_get_self; tc_solve
  | |- keeps _ get_disk => apply keeps_get_disk; tc_solve
  | |- keeps _ (not_None _) => apply keeps_not_None; tc_solve
  | |- keeps _ (foldM _ _ _) => apply keeps_foldM; [tc_solve|intros]
  | |- keeps _ (if ?c then _ else _) => destruct c
  | |- keeps _ (match ?c with _ => _ end) => destruct c
  end.

(** Relations between the world before and after. *)
Definition same_heap (w w' : World) : Prop := heap w' = heap w.
Definition same_disk (w w' : World) : Prop :=
  disk w' = disk w ∧ trace w' = trace w.
Definition same_dataset (w w' : World) : Prop :=
  data_dir (self w') = data_dir (self w)
  ∧ dataset_name (self w') = dataset_name (self w)
  ∧ class_names (self w') = class_names (self w)
  ∧ dataset_sizes (self w') = dataset_sizes (self w)
  ∧ data_loaders (self w') = data_loaders (self w)
  ∧ model_type (self w') = model_type (self w).
Definition same_self (w w' : World) : Prop := self w' = self w.

(** The trace grows by events that satisfy [P]. *)
Definition logs (P : Event → Prop) (w w' : World) : Prop :=
  ∃ evs, trace w' = trace w ++ evs ∧ Forall P evs.

Global Instance same_heap_preorder : PreOrder same_heap.
Proof. split; [done|]. unfold same_heap. intros ???. congruence. Qed.
Global Instance same_disk_preorder : PreOrder same_disk.
Proof.
  split; [done|]. unfold same_disk. intros ??? [??] [??]. split; congruence.
Qed.
Global Instance same_dataset_preorder : PreOrder same_dataset.
Proof.
  split; [done|]. unfold same_dataset.
  intros ??? (?&?&?&?&?&?) (?&?&?&?&?&?). repeat split; congruence.
Qed.
Global Instance same_self_preorder : PreOrder same_self.
Proof. split; [done|]. unfold same_self. intros ???. congruence. Qed.
Global Instance logs_preorder P : PreOrder (logs P).
Proof.
  split.
  - intros w. exists []. by rewrite app_nil_r.
  - intros w1 w2 w3 (e1 & H1 & HP1) (e2 & H2 & HP2). exists (e1 ++ e2).
    split; [by rewrite H2, H1, (assoc_L (++))|]. by apply Forall_app.
Qed.

Ltac keeps_prim :=
  let w := fresh "w" in
  intros w;
  unfold same_heap, same_disk, same_dataset, same_self,
    set_self, effect, assign, alloc, deref,
    with_model, with_optimizer, with_model_path;
  simpl; try done;
  try (destruct (heap w !! _); simpl; done).

Ltac keeps_auto := repeat keeps_step; try keeps_prim.

Section frames.
Context (format_5f : Q → string) (batches : nat → Phase → list Batch).






Lemma load_data_keeps_heap batch_size : keeps same_heap (load_data batch_size).
Proof. unfold load_data. keeps_auto. Qed.

Lemma model_state_dict_keeps R `{!PreOrder R} : keeps R model_state_dict.
Proof.
  unfold model_state_dict. keeps_auto.
Qed.



Lemma effect_keeps_heap f e : keeps same_heap (effect f e).
Proof. done. Qed.

Lemma effect_keeps_self f e : keeps same_self (effect f e).
Proof. done. Qed.



Lemma consider_checkpoint_keeps_heap dir epoch acc st :
  keeps same_heap (consider_checkpoint format_5f dir epoch acc st).
Proof.
  unfold consider_checkpoint, save_checkpoint, os_remove, torch_save.
  keeps_step; [|keeps_auto].
  keeps_step; [keeps_auto|]. keeps_step; [keeps_auto|].
  keeps_step; [apply model_state_dict_keeps; tc_solve|]. keeps_auto.
Qed.

Lemma consider_checkpoint_keeps_self dir epoch acc st :
  keeps same_self (consider_checkpoint format_5f dir epoch acc st).
Proof.
  unfold consider_checkpoint, save_checkpoint, os_remove, torch_save.
  keeps_step; [|keeps_auto].
  keeps_step; [keeps_auto|]. keeps_step; [keeps_auto|].
  keeps_step; [apply model_state_dict_keeps; tc_solve|]. keeps_auto.
Qed.

Lemma run_epoch_keeps R `{!PreOrder R} dir st epoch :
  (∀ dir epoch acc st,
     keeps R (consider_checkpoint format_5f dir epoch acc st)) →
  keeps R (run_epoch format_5f batches dir st epoch).
Proof.
  intros Hc. unfold run_epoch, run_phase. keeps_auto; apply Hc.
Qed.

End frames.

(** ** A small zoo, dataset and disk for examples *)

Definition fresh_param (s : shape) : Param :=
  {| p_shape := s; requires_grad := true |}.

Definition small_resnet : Model :=
  [("conv1", Single (Opaque [("weight", fresh_param [4; 3])] []));
   ("bn1", Single (Opaque [("weight", fresh_param [4])]
                     [("running_mean", [4%nat])]));
   ("fc", Single (nn_Linear 8 5))].

Definition small_mobilenet : Model :=
  [("features", Single (Opaque [("0.weight", fresh_param [4; 3])] []));
   ("classifier", Sequential [Opaque [] []; nn_Linear 6 5])].

Definition small_densenet : Model :=
  [("features",
    Single (Opaque
              [("denseblock1.denselayer1.norm1.weight", fresh_param [4])]
              [("denseblock1.denselayer1.norm1.running_mean", [4%nat])]));
   ("classifier", Single (nn_Linear 7 5))].

Definition profile (m : Model) : TrainParams Model :=
  {| tp_model := m; tp_lr := 1 # 10; tp_weight_decay := 1 # 10000;
     tp_lr_decay_rate := None; tp_lr_step_size := None |}.

(** Class folders [dog] and [cat], a ResNet checkpoint and a DenseNet
    checkpoint with legacy keys. *)
Definition pets_disk : Disk :=
  {| dirs := {[ "pets" := [];
                "pets/train" := [("dog", 2%nat); ("cat", 2%nat)];
                "pets/test" := [("dog", 1%nat); ("cat", 1%nat)] ]};
     files := {[ "resnet.pt" := Weights (state_dict_of small_resnet);
                 "densenet.pt" :=
                   Weights
                     [("features.denseblock1.denselayer1.norm.1.weight",
                       [4%nat]);
                      ("features.denseblock1.denselayer1.norm.1.running_mean",
                       [4%nat]);
                      ("classifier.weight", [5; 7]%nat);
                      ("classifier.bias", [5%nat])] ]} |}.

Definition pets_world : World :=
  {| self := init; heap := []; disk := pets_disk; trace := [] |}.

(** The world a computation leaves. *)
Definition after {A} (m : M A) (w : World) : World := (m w).2.

(** An architecture selected, the data bound: ready for
    [__set_training_param]. *)
Definition configured (select : M unit) : M unit :=
  select ;; setDataDirectory "pets" ;; load_data 2.

(** ** Replacing the head *)

Lemma transferred_head_in_features s d m m1 :
  transferred s d m = Ok m1 →
  head_in_features (model_type s) m1 = head_in_features (model_type s) m.
Proof.
  unfold transferred. destruct (decide (model_path s = "")).
  { by intros [= ->]. }
  destruct (files d !! model_path s) as [[|sd]|]; try done.
  destruct (if decide (model_type s = "densenet121") then _ else _);
    [|done].
  destruct (load_state_dict _ _); [|done].
  destruct (decide (transfer_learning_mode s = "freeze_all"));
    intros [= <-]; [apply head_in_features_freeze_all|done].
Qed.


Definition mobilenet_ready : World :=
  after (configured (setModelAsMobileNetV2 (profile small_mobilenet)))
    pets_world.


(** ** The freeze mode *)

Definition frozen (p : Param) : Prop := requires_grad p = false.

Lemma transferred_cases s d m m1 :
  transferred s d m = Ok m1 →
  (m1 = m ∧ (model_path s = "" ∨ transfer_learning_mode s ≠ "freeze_all"))
  ∨ (m1 = freeze_all m ∧ model_path s ≠ ""
     ∧ transfer_learning_mode s = "freeze_all").
Proof.
  unfold transferred. destruct (decide (model_path s = "")).
  { intros [= ->]. auto. }
  destruct (files d !! model_path s) as [[|sd]|]; try done.
  destruct (if decide (model_type s = "densenet121") then _ else _);
    [|done].
  destruct (load_state_dict _ _); [|done].
  destruct (decide (transfer_learning_mode s = "freeze_all"));
    intros [= <-]; auto.
Qed.

Lemma parameters_freeze_all_frozen m : Forall frozen (parameters (freeze_all m)).
Proof.
  rewrite parameters_freeze_all. apply Forall_fmap, Forall_true. done.
Qed.

Lemma nn_Linear_trainable i o :
  Forall trainable (layer_parameters (nn_Linear i o)).*2.
Proof. repeat constructor. Qed.

(** Replacing the head by a trainable one keeps a trainable network
    trainable. *)
Lemma set_head_trainable model_type m f l m' :
  head_in_features model_type m = Ok f →
  set_head model_type m l = Ok m' →
  Forall trainable (layer_parameters l).*2 →
  Forall trainable (parameters m) → Forall trainable (parameters m').
Proof.
  intros (old & ps1 & ps2 & _ & _ & -> & Hset)%head_split Hm' Hl.
  destruct (Hset l) as (m'' & Hm'' & _ & Hps & _).
  rewrite Hm' in Hm''. injection Hm'' as <-. rewrite Hps.
  rewrite !Forall_app. naive_solver.
Qed.

(** C6, as the code has it. When building the model succeeds: the new
    head is trainable; with a stored checkpoint path and mode
    [freeze_all], every parameter outside the head is non-trainable;
    without a stored path, or in any other mode, the parameters outside
    the head are exactly as the backbone had them, so a backbone whose
    parameters are all trainable gives a network whose parameters are all
    trainable. *)
Theorem freeze_mode_effect
  (w : World) (tp : TrainParams nat) (m m1 : Model) (names : list string)
  (in_width : nat) :
  model_type (self w) ≠ "" →
  training_params (self w) = Some tp →
  heap w !! tp_model tp = Some m →
  class_names (self w) = Some names →
  head_in_features (model_type (self w)) m = Ok in_width →
  transferred (self w) (disk w) m = Ok m1 →
  ∃ w' m' head,
    set_training_param w = (Ok tt, w')
    ∧ heap w' !! tp_model tp = Some m'
    ∧ head_of (model_type (self w)) m' = Some head
    ∧ Forall trainable (layer_parameters head).*2
    ∧ (model_path (self w) ≠ "" →
       transfer_learning_mode (self w) = "freeze_all" →
       Forall frozen (body_parameters (model_type (self w)) m'))
    ∧ (model_path (self w) = ""
       ∨ transfer_learning_mode (self w) ≠ "freeze_all" →
       body_parameters (model_type (self w)) m'
       = body_parameters (model_type (self w)) m
       ∧ (Forall trainable (parameters m) →
          Forall trainable (parameters m'))).
Proof.
  intros Hmt Htp Hm Hnames Hf Hm1.
  pose proof (transferred_head_in_features _ _ _ _ Hm1) as Hf1.
  rewrite Hf in Hf1.
  destruct (head_split _ _ _ Hf1) as (old & ps1 & ps2 & _ & _ & _ & Hset).
  destruct (Hset (nn_Linear in_width (length names)))
    as (m' & Hm' & Hhead & _).
  eexists _, m', _. split.
  { eapply set_training_param_run; try done.
    unfold rebuilt. by rewrite Hm1, Hf1. }
  simpl. split.
  { apply list_lookup_insert_eq. by eapply lookup_lt_Some. }
  split; [done|]. split; [apply nn_Linear_trainable|].
  rewrite (body_parameters_set_head _ _ _ _ _ Hf1 Hm').
  destruct (transferred_cases _ _ _ _ Hm1) as [[-> Hc]|(-> & Hp & Hmode)].
  - split; [naive_solver|]. intros _. split; [done|].
    eapply set_head_trainable; [done..|]. apply nn_Linear_trainable.
  - split; [|naive_solver]. intros _ _.
    eapply Forall_forall. intros p Hp'.
    eapply (Forall_forall frozen); [apply (parameters_freeze_all_frozen m)|].
    by eapply body_parameters_subseteq.
Qed.

Section tail_frames.
Context (format_5f : Q → string) (batches : nat → Phase → list Batch).

Lemma persist_and_train_keeps_heap n dir :
  keeps same_heap (persist_and_train format_5f batches n dir).
Proof.
  unfold persist_and_train, os_mkdir, json_dump.
  do 5 (keeps_step; [keeps_auto|]).
  keeps_step; [keeps_auto|].
  keeps_step; [apply model_state_dict_keeps; tc_solve|].
  keeps_step. apply run_epoch_keeps; [tc_solve|].
  apply consider_checkpoint_keeps_heap.
Qed.


End tail_frames.

(** Without a stored checkpoint path, [__set_training_param] leaves the
    parameters outside the head as they are, whatever the freeze mode and
    whether it succeeds or raises. *)
Lemma set_training_param_no_path w tp m :
  model_path (self w) = "" →
  training_params (self w) = Some tp →
  heap w !! tp_model tp = Some m →
  ∃ m', heap (after set_training_param w) !! tp_model tp = Some m'
        ∧ body_parameters (model_type (self w)) m'
          = body_parameters (model_type (self w)) m
        ∧ (Forall trainable (parameters m) → Forall trainable (parameters m')).
Proof.
  intros Hpath Htp Hm. unfold after, set_training_param.
  rewrite (bind_Ok get_self _ w (self w) w) by done.
  destruct (decide (model_type (self w) = "")); [by exists m|].
  rewrite (bind_Ok _ _ w tp w) by (by rewrite Htp).
  erewrite bind_Ok by reflexivity.
  rewrite decide_True by done. unfold_M. simpl. rewrite Hm.
  destruct (head_in_features (model_type (self w)) m) as [f|] eqn:Hf;
    simpl; [|by exists m].
  destruct (class_names (self w)) as [names|]; simpl; [|by exists m].
  destruct (head_split _ _ _ Hf) as (old & ps1 & ps2 & _ & _ & _ & Hset).
  destruct (Hset (nn_Linear f (length names))) as (m' & Hm' & _).
  rewrite Hm'. simpl. exists m'. split.
  { apply list_lookup_insert_eq. by eapply lookup_lt_Some. }
  split; [by eapply body_parameters_set_head|].
  eapply set_head_trainable; [done..|]. apply nn_Linear_trainable.
Qed.

(** C10, as the code has it. On a trainer that holds no checkpoint path
    (none was passed to an earlier [trainModel] either), a call of
    [trainModel] without [transfer_from_model] never reaches the freezing
    branch, whatever [freezeAllLayers] set: the parameters outside the
    head keep the flags the backbone had, and if all parameters of the
    backbone were trainable, so are all parameters of the model. *)
Theorem trainModel_without_checkpoint
  (format_5f : Q → string) (batches : nat → Phase → list Batch)
  (num_experiments batch_size : nat)
  (model_directory transfer_from_model : option string)
  (w : World) (tp : TrainParams nat) (m : Model) :
  truthy transfer_from_model = None →
  model_path (self w) = "" →
  training_params (self w) = Some tp →
  heap w !! tp_model tp = Some m →
  ∃ m',
    heap (after (trainModel format_5f batches num_experiments batch_size
                   model_directory transfer_from_model) w)
      !! tp_model tp = Some m'
    ∧ body_parameters (model_type (self w)) m'
      = body_parameters (model_type (self w)) m
    ∧ (Forall trainable (parameters m) → Forall trainable (parameters m')).
Proof.
  intros Htf Hpath Htp Hm. unfold after, trainModel. rewrite Htf.
  assert ((∃ w1, load_data batch_size w = (Ok tt, w1)
                 ∧ heap w1 = heap w ∧ model_path (self w1) = ""
                 ∧ training_params (self w1) = Some tp
                 ∧ model_type (self w1) = model_type (self w))
          ∨ ∃ e, load_data batch_size w = (Raise e, w))
    as [(w1 & Hload & Hheap & Hp1 & Htp1 & Hmt1)|[e Hload]].
  { rewrite load_data_run.
    destruct (decide (data_dir (self w) = "")); [eauto|].
    destruct (ImageFolder _ _); [|eauto].
    destruct (ImageFolder _ _); [|eauto].
    destruct (decide (batch_size = 0%nat)); [eauto|].
    left. eexists. split; [done|]. done. }
  2:{ erewrite bind_Raise by done. by exists m. }
  erewrite bind_Ok by done. erewrite bind_Ok by reflexivity.
  rewrite <- Hheap in Hm.
  destruct (set_training_param_no_path w1 tp m Hp1 Htp1 Hm)
    as (m' & Hm' & Hbody & Htrain).
  unfold after in Hm'. rewrite Hmt1 in Hbody.
  destruct (set_training_param w1) as [[[]|e] w2] eqn:Hrun.
  - erewrite bind_Ok by done. exists m'. split; [|done].
    by rewrite (persist_and_train_keeps_heap _ _ _ _ w2).
  - erewrite bind_Raise by done. by exists m'.
Qed.

(** *** Example runs *)

(** A stand-in for the [:.5f] rendering. *)
Definition ratio_text (q : Q) : string :=
  pretty (Qnum q) +:+ "of" +:+ pretty (Zpos (Qden q)).

(** Two images per test pass; epoch 1 predicts both right, the other
    epochs one of them. *)
Definition two_image_batches (epoch : nat) (phase : Phase) : list Batch :=
  match phase with
  | train =>
      [{| labels := [0; 1]; preds := [0; 0]; loss := 1 |};
       {| labels := [0; 1]; preds := [1; 1]; loss := 1 |}]%nat
  | test =>
      [{| labels := [0; 1]%nat;
          preds := [0%nat; if decide (epoch = 1%nat) then 1%nat else 0%nat];
          loss := 1 |}]
  end.

Definition store_model_path (path : string) : M unit :=
  s <- get_self ;; set_self (with_model_path s path).

Definition densenet_transfer_ready : World :=
  after (configured (setModelAsDenseNet121 (profile small_densenet)) ;;
         freezeAllLayers ;; store_model_path "densenet.pt")
    pets_world.

Lemma freeze_mode_effect_witness :
  ∃ w' m' head,
    set_training_param densenet_transfer_ready = (Ok tt, w')
    ∧ heap w' !! 0%nat = Some m'
    ∧ head_of "densenet121" m' = Some head
    ∧ Forall trainable (layer_parameters head).*2
    ∧ ("densenet.pt" ≠ "" → "freeze_all" = "freeze_all" →
       Forall frozen (body_parameters "densenet121" m'))
    ∧ ("densenet.pt" = "" ∨ "freeze_all" ≠ "freeze_all" →
       body_parameters "densenet121" m'
       = body_parameters "densenet121" small_densenet
       ∧ (Forall trainable (parameters small_densenet) →
          Forall trainable (parameters m'))).
Proof.
  apply (freeze_mode_effect densenet_transfer_ready
           {| tp_model := 0%nat; tp_lr := 1 # 10;
              tp_weight_decay := 1 # 10000;
              tp_lr_decay_rate := None; tp_lr_step_size := None |}
           small_densenet (freeze_all small_densenet) ["cat"; "dog"] 7);
    by vm_compute.
Defined.

(** [freezeAllLayers()], then [trainModel()] without a checkpoint. *)
Definition frozen_without_checkpoint : M Loop :=
  setModelAsResNet50 (profile small_resnet) ;;
  setDataDirectory "pets" ;;
  freezeAllLayers ;;
  trainModel ratio_text two_image_batches 1 2 None None.

(** C6 fails as stated: the mode is [freeze_all], the run succeeds, and
    a parameter outside the head is still trainable. *)
Lemma freeze_all_without_checkpoint :
  is_Ok (frozen_without_checkpoint pets_world).1
  ∧ transfer_learning_mode (self (after frozen_without_checkpoint pets_world))
    = "freeze_all"
  ∧ ∃ m' p,
      heap (after frozen_without_checkpoint pets_world) !! 0%nat = Some m'
      ∧ p ∈ body_parameters "resnet50" m'
      ∧ requires_grad p = true.
Proof.
  split; [by vm_compute|]. split; [by vm_compute|].
  eexists _, (fresh_param [4; 3]). split; [by vm_compute|].
  split; [|done]. vm_compute. left.
Qed.

(** A run with a checkpoint, the architecture selected again, then
    [trainModel()] without a checkpoint. *)
Definition second_run_without_checkpoint : M Loop :=
  setModelAsResNet50 (profile small_resnet) ;;
  setDataDirectory "pets" ;;
  freezeAllLayers ;;
  trainModel ratio_text two_image_batches 0 2 None (Some "resnet.pt") ;;
  setModelAsResNet50 (profile small_resnet) ;;
  trainModel ratio_text two_image_batches 0 2 None None.

(** C10 fails as stated: the path stored by the first call makes the
    second call, which passes none, load the checkpoint and freeze. *)
Lemma stored_path_freezes_later_run :
  is_Ok (second_run_without_checkpoint pets_world).1
  ∧ model (self (after second_run_without_checkpoint pets_world))
    = Some 1%nat
  ∧ ∃ m' p,
      heap (after second_run_without_checkpoint pets_world) !! 1%nat
      = Some m'
      ∧ p ∈ parameters m'
      ∧ requires_grad p = false.
Proof.
  split; [by vm_compute|]. split; [by vm_compute|].
  eexists _, {| p_shape := [4; 3]; requires_grad := false |}.
  split; [by vm_compute|]. split; [|done]. vm_compute. left.
Qed.

Definition resnet_frozen_selected : World :=
  after (setModelAsResNet50 (profile small_resnet) ;;
         setDataDirectory "pets" ;; freezeAllLayers) pets_world.

Lemma trainModel_without_checkpoint_witness :
  ∃ m',
    heap (after (trainModel ratio_text two_image_batches 2 2 None None)
            resnet_frozen_selected) !! 0%nat = Some m'
    ∧ body_parameters "resnet50" m' = body_parameters "resnet50" small_resnet
    ∧ (Forall trainable (parameters small_resnet) →
       Forall trainable (parameters m')).
Proof.
  apply (trainModel_without_checkpoint ratio_text two_image_batches 2 2
           None None resnet_frozen_selected
           {| tp_model := 0%nat; tp_lr := 1 # 10;
              tp_weight_decay := 1 # 10000;
              tp_lr_decay_rate := None; tp_lr_step_size := None |}
           small_resnet); by vm_compute.
Defined.

(** ** Dataset errors *)

Lemma ImageFolder_Raise d root e :
  ImageFolder d root = Raise e →
  e = FileNotFoundError ∨ e = NotADirectoryError.
Proof.
  unfold ImageFolder. destruct (dirs d !! root) as [entries|].
  - repeat case_match; naive_solver.
  - case_match; naive_solver.
Qed.

Lemma ImageFolder_Ok d root ds :
  ImageFolder d root = Ok ds → is_Some (dirs d !! root).
Proof. unfold ImageFolder. destruct (dirs d !! root); [eauto|]. by case_match. Qed.

(** C9. [setDataDirectory] raises (a [ValueError]) on a path that is
    missing or not a directory, and leaves the trainer as it was;
    [trainModel] raises on a trainer whose data directory is unset
    ([RuntimeError]) or lacks the [train] or the [test] folder (the
    [FileNotFoundError] or [NotADirectoryError] of the folder scan), and
    leaves the whole world as it was: no model is bound or built, nothing
    is written. *)
Theorem dataset_errors_before_model
  (format_5f : Q → string) (batches : nat → Phase → list Batch)
  (num_experiments batch_size : nat)
  (model_directory transfer_from_model : option string)
  (w : World) (path : string) :
  (os_path_isdir (disk w) path = false →
   setDataDirectory path w = (Raise ValueError, w))
  ∧ (data_dir (self w) = "" →
     trainModel format_5f batches num_experiments batch_size
       model_directory transfer_from_model w
     = (Raise RuntimeError, w))
  ∧ (data_dir (self w) ≠ "" →
     dirs (disk w) !! os_path_join (data_dir (self w)) "train" = None
     ∨ dirs (disk w) !! os_path_join (data_dir (self w)) "test" = None →
     ∃ e, trainModel format_5f batches num_experiments batch_size
            model_directory transfer_from_model w
          = (Raise e, w)
          ∧ (e = FileNotFoundError ∨ e = NotADirectoryError)).
Proof.
  split; [|split].
  - intros Hdir. unfold setDataDirectory. unfold_M. simpl. by rewrite Hdir.
  - intros Hdd. unfold trainModel. erewrite bind_Raise; [done|].
    rewrite load_data_run. by rewrite decide_True.
  - intros Hdd Hmissing. unfold trainModel.
    assert (∃ e, load_data batch_size w = (Raise e, w)
                 ∧ (e = FileNotFoundError ∨ e = NotADirectoryError))
      as (e & Hload & He).
    { rewrite load_data_run, decide_False by done.
      destruct (ImageFolder _ (os_path_join _ "train")) as [tr|e] eqn:Htr.
      2:{ exists e. split; [done|]. by eapply ImageFolder_Raise. }
      destruct (ImageFolder _ (os_path_join _ "test")) as [te|e] eqn:Hte.
      2:{ exists e. split; [done|]. by eapply ImageFolder_Raise. }
      apply ImageFolder_Ok in Htr as [? Htr], Hte as [? Hte].
      destruct Hmissing; congruence. }
    exists e. split; [|done]. by erewrite bind_Raise.
Qed.

(** The data folder of [pets_disk] without its [test] folder. *)
Definition no_test_world : World :=
  {| self := with_data_dir init "pets"; heap := [];
     disk := {| dirs := {[ "pets" := [];
                           "pets/train" := [("dog", 2%nat)] ]};
                files := ∅ |};
     trace := [] |}.

Lemma dataset_errors_before_model_witness :
  setDataDirectory "pets/images" pets_world = (Raise ValueError, pets_world)
  ∧ trainModel ratio_text two_image_batches 1 2 None None pets_world
    = (Raise RuntimeError, pets_world)
  ∧ ∃ e, trainModel ratio_text two_image_batches 1 2 None None no_test_world
         = (Raise e, no_test_world)
         ∧ (e = FileNotFoundError ∨ e = NotADirectoryError).
Proof.
  split; [|split].
  - apply (dataset_errors_before_model ratio_text two_image_batches 1 2
             None None pets_world "pets/images"). by vm_compute.
  - apply (dataset_errors_before_model ratio_text two_image_batches 1 2
             None None pets_world "pets/images"). by vm_compute.
  - apply (dataset_errors_before_model ratio_text two_image_batches 1 2
             None None no_test_world "pets"); [by vm_compute|].
    right. by vm_compute.
Defined.

(** ** The class mapping file *)




Section mapping_file.
Context (format_5f : Q → string) (batches : nat → Phase → list Batch).





End mapping_file.


(** ** Checkpoint rotation *)




Section rotation.
Context (format_5f : Q → string).

(** The checkpoint sequence of the spec: one consideration per test
    phase, epochs counted from [epoch]. *)
Fixpoint considerations (model_directory : string) (epoch : nat)
  (accs : list Q) (st : Loop) : M Loop :=
  match accs with
  | [] => ret st
  | acc :: accs' =>
      st' <- consider_checkpoint format_5f model_directory epoch acc st ;;
      considerations model_directory (S epoch) accs' st'
  end.








End rotation.

(** *** One epoch on the pets, then a better one *)

Definition one_epoch_run : M Loop :=
  setModelAsResNet50 (profile small_resnet) ;;
  setDataDirectory "pets" ;;
  trainModel ratio_text two_image_batches 1 2 None None.

Definition first_epoch_world : World := after one_epoch_run pets_world.

Definition pets_resnet : Model :=
  [("conv1", Single (Opaque [("weight", fresh_param [4; 3])] []));
   ("bn1", Single (Opaque [("weight", fresh_param [4])]
                     [("running_mean", [4%nat])]));
   ("fc", Single (nn_Linear 8 2))].

Definition first_checkpoint : string :=
  "resnet50-pets-test_acc_1of2_epoch-0.pt".

Definition first_epoch_state : Loop :=
  {| best_acc := 1 # 2; prev_save_name := first_checkpoint;
     recent_save_name := first_checkpoint;
     best_model_weights := state_dict_of pets_resnet |}.

Example one_epoch_run_result :
  (one_epoch_run pets_world).1 = Ok first_epoch_state
  ∧ trace first_epoch_world
    = [EvMkdir "pets/models";
       EvDump "pets/models/pets_model_classes.json"
         [("0", "cat"); ("1", "dog")];
       EvSave ("pets/models/" +:+ first_checkpoint)
         (state_dict_of pets_resnet)].
Proof. split; by vm_compute. Qed.



(** *** Sequences of considerations *)


Section tracking.
Context (format_5f : Q → string).




End tracking.


Section sequences.
Context (format_5f : Q → string).



End sequences.


(** The pets trainer with its ResNet built, before the loop. *)
Definition resnet_built : World :=
  after (configured (setModelAsResNet50 (profile small_resnet)) ;;
         set_training_param) pets_world.

Definition initial_loop : Loop :=
  {| best_acc := 0; prev_save_name := ""; recent_save_name := "";
     best_model_weights := state_dict_of pets_resnet |}.







(** * Further properties

    ** When a phase has metrics *)

Lemma fold_batch_step_nil_or_tensor bs r :
  (bs = [] ∧ fold_left batch_step bs r = r)
  ∨ ∃ c, (fold_left batch_step bs r).2 = Tensor c.
Proof.
  destruct bs as [|b bs]; [by left|]. right.
  by apply fold_batch_step_tensor.
Qed.

(** The metrics of a phase exist exactly when the split is not empty and
    the loader yields at least one batch: on an empty split the division
    raises [ZeroDivisionError]; without a batch [running_corrects] is
    still the integer [0], which has no [double()]. *)
Theorem epoch_metrics_defined (bs : list Batch) (dataset_size : nat) :
  match epoch_metrics bs dataset_size with
  | Ok _ => dataset_size ≠ 0%nat ∧ bs ≠ []
  | Raise e =>
      (dataset_size = 0%nat ∧ e = ZeroDivisionError)
      ∨ (dataset_size ≠ 0%nat ∧ bs = [] ∧ e = AttributeError)
  end.
Proof.
  unfold epoch_metrics.
  destruct (decide (dataset_size = 0%nat)) as [->|Hn]; [by left|].
  destruct (fold_batch_step_nil_or_tensor bs (0%Q, PyInt 0))
    as [[-> ->]|[c Hc]]; simpl.
  - by right.
  - rewrite Hc. split; [done|]. by intros ->.
Qed.

(** ** The loop as a sequence of considerations *)

Section loop.
Context (format_5f : Q → string) (batches : nat → Phase → list Batch).

(** The accuracy the test phase of an epoch reports. *)
Definition test_accuracy (sizes : nat * nat) (epoch : nat) : Q :=
  match epoch_metrics (batches epoch test) sizes.2 with
  | Ok metrics => metrics.2
  | Raise _ => 0
  end.

Lemma considerations_keeps_self dir accs : ∀ epoch st,
  keeps same_self (considerations format_5f dir epoch accs st).
Proof.
  induction accs as [|acc accs IH]; intros epoch st; simpl.
  - apply keeps_ret. tc_solve.
  - apply keeps_bind; [tc_solve|apply consider_checkpoint_keeps_self|].
    intros. apply IH.
Qed.

Lemma run_epoch_run dir st epoch w dl sizes :
  data_loaders (self w) = Some dl →
  dataset_sizes (self w) = Some sizes →
  is_Ok (epoch_metrics (batches epoch train) sizes.1) →
  is_Ok (epoch_metrics (batches epoch test) sizes.2) →
  run_epoch format_5f batches dir st epoch w
  = consider_checkpoint format_5f dir epoch (test_accuracy sizes epoch) st w.
Proof.
  intros Hdl Hsz Htrain Htest. unfold run_epoch, run_phase, test_accuracy.
  unfold_M. simpl. rewrite Hdl, Hsz. simpl.
  destruct (epoch_metrics (batches epoch train) sizes.1); [|done].
  rewrite Hdl, Hsz. simpl.
  by destruct (epoch_metrics (batches epoch test) sizes.2).
Qed.

Lemma foldM_run_epoch (dir : string) (n epoch : nat) (st : Loop) (w : World)
  (dl : DataLoaders) (sizes : nat * nat) :
  data_loaders (self w) = Some dl →
  dataset_sizes (self w) = Some sizes →
  (∀ e phase, (epoch ≤ e < epoch + n)%nat →
              is_Ok (epoch_metrics (batches e phase)
                       (split_size phase sizes))) →
  foldM (run_epoch format_5f batches dir) (seq epoch n) st w
  = considerations format_5f dir epoch
      (test_accuracy sizes <$> seq epoch n) st w.
Proof.
  revert epoch st w. induction n as [|n IH]; intros epoch st w Hdl Hsz Hok.
  { done. }
  cbn [seq foldM fmap list_fmap considerations]. unfold bind.
  rewrite (run_epoch_run dir st epoch w dl sizes Hdl Hsz);
    [|apply (Hok epoch train); lia|apply (Hok epoch test); lia].
  pose proof (consider_checkpoint_keeps_self format_5f dir epoch
                (test_accuracy sizes epoch) st w) as Hself.
  unfold same_self in Hself.
  destruct (consider_checkpoint _ _ _ _ _ _) as [[st1|e] w1]; [|done].
  simpl in Hself. apply IH; [by rewrite Hself..|].
  intros e ph He. apply Hok. lia.
Qed.

(** A train phase never touches the checkpoints: when every phase of
    the epochs [epoch, epoch + n) has metrics, the loop over these epochs
    is the sequence of considerations of their test accuracies. *)
Theorem epochs_are_considerations
  (dir : string) (n epoch : nat) (st : Loop) (w : World)
  (dl : DataLoaders) (sizes : nat * nat) :
  data_loaders (self w) = Some dl →
  dataset_sizes (self w) = Some sizes →
  (∀ e phase, (epoch ≤ e < epoch + n)%nat →
              is_Ok (epoch_metrics (batches e phase)
                       (split_size phase sizes))) →
  foldM (run_epoch format_5f batches dir) (seq epoch n) st w
  = considerations format_5f dir epoch
      (test_accuracy sizes <$> seq epoch n) st w.
Proof. apply foldM_run_epoch. Qed.

End loop.

(** ** A whole run without transfer *)

Section whole_run.
Context (format_5f : Q → string) (batches : nat → Phase → list Batch).






End whole_run.





Lemma epochs_are_considerations_witness :
  foldM (run_epoch ratio_text two_image_batches "models") (seq 0 3)
    initial_loop resnet_built
  = considerations ratio_text "models" 0
      (test_accuracy two_image_batches (4%nat, 2%nat) <$> seq 0 3)
      initial_loop resnet_built.
Proof.
  apply (epochs_are_considerations ratio_text two_image_batches "models" 3 0
           initial_loop resnet_built
           {| batch_size_of := 2;
              train_set := {| classes := ["cat"; "dog"]; size := 4 |};
              test_set := {| classes := ["cat"; "dog"]; size := 2 |} |}
           (4%nat, 2%nat)); [by vm_compute..|].
  intros e [] _; simpl; [by vm_compute|].
  destruct (decide (e = 1%nat)); by vm_compute.
Defined.

(** ** Failures while building the model *)

(** Without an architecture [trainModel] always raises, whatever the
    dataset: no network is bound or changed and nothing is written. *)
Theorem trainModel_without_architecture
  (format_5f : Q → string) (batches : nat → Phase → list Batch)
  (num_experiments batch_size : nat)
  (model_directory transfer_from_model : option string) (w : World) :
  model_type (self w) = "" →
  ∃ e w',
    trainModel format_5f batches num_experiments batch_size
      model_directory transfer_from_model w = (Raise e, w')
    ∧ model (self w') = model (self w)
    ∧ heap w' = heap w ∧ disk w' = disk w ∧ trace w' = trace w.
Proof.
  intros Hmt. unfold trainModel.
  pose proof (load_data_run batch_size w) as Hl.
  assert (∀ w1, model_type (self w1) = "" →
                set_training_param w1 = (Raise RuntimeError, w1)) as Hraise.
  { intros w1 H1. unfold set_training_param. unfold_M. simpl.
    by rewrite decide_True. }
  destruct (decide (data_dir (self w) = "")).
  { eexists _, w. by erewrite bind_Raise. }
  destruct (ImageFolder _ _).
  2:{ eexists _, w. by erewrite bind_Raise. }
  destruct (ImageFolder _ _).
  2:{ eexists _, w. by erewrite bind_Raise. }
  destruct (decide (batch_size = 0%nat)).
  { eexists _, w. by erewrite bind_Raise. }
  erewrite bind_Ok by exact Hl.
  destruct (truthy transfer_from_model) as [path|].
  - erewrite bind_Ok by reflexivity. erewrite bind_Raise; [|by apply Hraise].
    eexists _, _. split; [done|]. done.
  - erewrite bind_Ok by reflexivity. erewrite bind_Raise; [|by apply Hraise].
    eexists _, _. split; [done|]. done.
Qed.

Lemma trainModel_without_architecture_witness :
  ∃ e w',
    trainModel ratio_text two_image_batches 1 2 None (Some "resnet.pt")
      (after (setDataDirectory "pets") pets_world) = (Raise e, w')
    ∧ model (self w') = model (self (after (setDataDirectory "pets") pets_world))
    ∧ heap w' = heap (after (setDataDirectory "pets") pets_world)
    ∧ disk w' = disk (after (setDataDirectory "pets") pets_world)
    ∧ trace w' = trace (after (setDataDirectory "pets") pets_world).
Proof.
  apply (trainModel_without_architecture ratio_text two_image_batches 1 2
           None (Some "resnet.pt") (after (setDataDirectory "pets") pets_world)).
  by vm_compute.
Defined.

(** A backbone without a linear layer where its architecture keeps the
    head makes [__set_training_param] raise the error of the attribute
    access; without a stored checkpoint path the network is bound to the
    trainer but not changed, and no optimizer is created. *)
Theorem set_training_param_without_head
  (w : World) (tp : TrainParams nat) (m : Model) (e : exn) :
  model_type (self w) ≠ "" →
  model_path (self w) = "" →
  training_params (self w) = Some tp →
  heap w !! tp_model tp = Some m →
  head_in_features (model_type (self w)) m = Raise e →
  set_training_param w
  = (Raise e, set_world_self w (with_model (self w) (tp_model tp))).
Proof.
  intros Hmt Hpath Htp Hm Hf. unfold set_training_param. unfold_M. simpl.
  rewrite decide_False by done. rewrite Htp. simpl.
  rewrite decide_True by done. simpl. rewrite Hm. by rewrite Hf.
Qed.

(** A network without [fc], selected as a ResNet. *)
Definition headless_ready : World :=
  after (configured (setModelAsResNet50 (profile small_mobilenet)))
    pets_world.

Lemma set_training_param_without_head_witness :
  set_training_param headless_ready
  = (Raise AttributeError,
     set_world_self headless_ready (with_model (self headless_ready) 0)).
Proof.
  apply (set_training_param_without_head headless_ready
           {| tp_model := 0%nat; tp_lr := 1 # 10;
              tp_weight_decay := 1 # 10000;
              tp_lr_decay_rate := None; tp_lr_step_size := None |}
           small_mobilenet AttributeError); by vm_compute.
Defined.

(** ** What head replacement leaves alone *)

(** The attribute under which an architecture keeps its head. *)
Definition head_attr (model_type : string) : string :=
  if decide (model_type = "mobilenet_v2") then "classifier"
  else if decide (model_type = "densenet121") then "classifier" else "fc".

Lemma dict_keys_set_present {V} k (v c : V) d :
  Dict.get k d = Some c → Dict.keys (Dict.set k v d) = Dict.keys d.
Proof.
  intros (d1 & d2 & -> & Hset)%dict_get_split. rewrite Hset.
  unfold Dict.keys. by rewrite !fmap_app.
Qed.

(** Replacing the head keeps the children of the network and their
    order, changes no child but the one that holds the head, and in the
    two-stage head of mobilenet_v2 changes no stage but the second. *)
Theorem set_head_changes_head_only
  (model_type : string) (m m' : Model) (in_width : nat) (l : Layer) :
  head_in_features model_type m = Ok in_width →
  set_head model_type m l = Ok m' →
  Dict.keys m' = Dict.keys m
  ∧ (∀ attr, attr ≠ head_attr model_type →
             Dict.get attr m' = Dict.get attr m)
  ∧ (model_type = "mobilenet_v2" →
     ∃ ls, Dict.get "classifier" m = Some (Sequential ls)
           ∧ Dict.get "classifier" m'
             = Some (Sequential (<[1%nat := l]> ls))
           ∧ ∀ i, i ≠ 1%nat → <[1%nat := l]> ls !! i = ls !! i).
Proof.
  unfold head_in_features, set_head, head_attr.
  destruct (decide (model_type = "mobilenet_v2")) as [Hmob|Hmob].
  - destruct (getattr m "classifier") as [[l0|ls]|] eqn:Hget; try done.
    apply getattr_Ok in Hget.
    destruct (ls !! 1%nat) as [l0|] eqn:Hl0; [|done]. intros _.
    rewrite decide_True by (by eapply lookup_lt_Some). intros [= <-].
    split; [by eapply dict_keys_set_present|].
    split; [intros attr Hattr; by apply dict_get_set_ne|]. intros _.
    exists ls. split; [done|]. split; [apply dict_get_set|].
    intros i Hi. by apply list_lookup_insert_ne.
  - set (attr := if decide (model_type = "densenet121")
                 then "classifier" else "fc").
    destruct (getattr m attr) as [[l0|ls]|] eqn:Hget; try done.
    apply getattr_Ok in Hget. intros _ Hm'.
    assert (m' = Dict.set attr (Single l) m) as ->.
    { subst attr. destruct (decide (model_type = "densenet121")); congruence. }
    split; [by eapply dict_keys_set_present|].
    split; [intros attr' Hattr; by apply dict_get_set_ne|]. done.
Qed.

Lemma set_head_changes_head_only_witness :
  Dict.keys (Dict.set "classifier"
               (Sequential [Opaque [] []; nn_Linear 6 2]) small_mobilenet)
  = Dict.keys small_mobilenet
  ∧ (∀ attr, attr ≠ head_attr "mobilenet_v2" →
             Dict.get attr
               (Dict.set "classifier"
                  (Sequential [Opaque [] []; nn_Linear 6 2]) small_mobilenet)
             = Dict.get attr small_mobilenet)
  ∧ ("mobilenet_v2" = "mobilenet_v2" →
     ∃ ls, Dict.get "classifier" small_mobilenet = Some (Sequential ls)
           ∧ Dict.get "classifier"
               (Dict.set "classifier"
                  (Sequential [Opaque [] []; nn_Linear 6 2]) small_mobilenet)
             = Some (Sequential (<[1%nat := nn_Linear 6 2]> ls))
           ∧ ∀ i, i ≠ 1%nat → <[1%nat := nn_Linear 6 2]> ls !! i = ls !! i).
Proof.
  apply (set_head_changes_head_only "mobilenet_v2" small_mobilenet
           (Dict.set "classifier"
              (Sequential [Opaque [] []; nn_Linear 6 2]) small_mobilenet)
           6 (nn_Linear 6 2)); by vm_compute.
Defined.

(** ** Building twice *)

Lemma head_in_features_head_of model_type m l :
  head_of model_type m = Some l →
  head_in_features model_type m = layer_in_features l.
Proof.
  unfold head_of, head_in_features, getattr.
  destruct (decide (model_type = "mobilenet_v2")).
  - destruct (Dict.get "classifier" m) as [[?|ls]|]; try done.
    by intros ->.
  - destruct (Dict.get _ m) as [[?|ls]|]; try done. by intros [= ->].
Qed.

Lemma new_scheduler_idempotent tp old :
  new_scheduler tp (new_scheduler tp old) = new_scheduler tp old.
Proof. unfold new_scheduler. by repeat case_match. Qed.

(** Without a stored checkpoint path, building the model a second time
    (a second [trainModel] on the same trainer and classes) leaves the
    world exactly as the first build left it: the head is replaced by an
    equal one, the optimizer and scheduler are the same. *)
Theorem set_training_param_twice
  (w : World) (tp : TrainParams nat) (m : Model) (names : list string)
  (in_width : nat) :
  model_type (self w) ≠ "" →
  model_path (self w) = "" →
  training_params (self w) = Some tp →
  heap w !! tp_model tp = Some m →
  class_names (self w) = Some names →
  head_in_features (model_type (self w)) m = Ok in_width →
  ∃ w', set_training_param w = (Ok tt, w')
        ∧ set_training_param w' = (Ok tt, w').
Proof.
  intros Hmt Hpath Htp Hm Hnames Hf.
  destruct (head_split _ _ _ Hf) as (old & ps1 & ps2 & _ & _ & _ & Hset).
  destruct (Hset (nn_Linear in_width (length names)))
    as (m' & Hm' & Hhead & _ & Hagain).
  assert (rebuilt (self w) (disk w) m (length names) = Ok m') as Hre.
  { unfold rebuilt, transferred. rewrite decide_True by done. by rewrite Hf. }
  pose proof (set_training_param_run w tp m names m' Hmt Htp Hm Hnames Hre)
    as Hrun.
  match type of Hrun with _ = (_, ?w1) => set (w' := w1) in * end.
  exists w'. split; [done|].
  assert (heap w' !! tp_model tp = Some m') as Hm2.
  { simpl. apply list_lookup_insert_eq. by eapply lookup_lt_Some. }
  rewrite (set_training_param_run w' tp m' names m'); try done.
  - subst w'. simpl. rewrite list_insert_insert_eq, new_scheduler_idempotent.
    done.
  - unfold rebuilt, transferred. simpl. rewrite decide_True by done.
    rewrite (head_in_features_head_of _ _ _ Hhead). simpl.
    by rewrite Hagain.
Qed.

Lemma set_training_param_twice_witness :
  ∃ w', set_training_param mobilenet_ready = (Ok tt, w')
        ∧ set_training_param w' = (Ok tt, w').
Proof.
  apply (set_training_param_twice mobilenet_ready
           {| tp_model := 0%nat; tp_lr := 1 # 10;
              tp_weight_decay := 1 # 10000;
              tp_lr_decay_rate := None; tp_lr_step_size := None |}
           small_mobilenet ["cat"; "dog"] 6); by vm_compute.
Defined.

(** ** The keys the legacy pattern matches *)

Lemma strip_lit_app l s : strip_lit l (l ++ s) = Some s.
Proof.
  induction l as [|c l IH]; simpl; [by destruct s|].
  by rewrite bool_decide_eq_true_2.
Qed.

Lemma rep_residuals_self p s : s ∈ rep_residuals p s.
Proof.
  destruct s as [|c s]; simpl; [by left|].
  destruct (p c); [apply elem_of_app; right|]; by left.
Qed.

Lemma rep_residuals_complete p m x :
  forallb p m = true → x ∈ rep_residuals p (m ++ x).
Proof.
  induction m as [|c m IH]; simpl; [intros _; apply rep_residuals_self|].
  intros [Hc Hm]%andb_true_iff. rewrite Hc. apply elem_of_app. auto.
Qed.

(** Every rest a match of [r] leaves is among those the matcher tries. *)
Lemma residuals_complete r m x :
  matches r m = true → x ∈ residuals r (m ++ x).
Proof.
  revert m x. induction r as [l|p|p|r1 IH1 r2 IH2|r1 IH1 r2 IH2];
    intros m x.
  - simpl. intros ->%bool_decide_eq_true. rewrite strip_lit_app. by left.
  - intros (c & -> & Hc)%matches_Cls. simpl. rewrite Hc. by left.
  - simpl. apply rep_residuals_complete.
  - intros (m1 & m2 & -> & H1 & H2)%matches_Cat. cbn [residuals].
    apply list_elem_of_bind. exists (m2 ++ x). split; [by apply IH2|].
    rewrite <- (assoc_L (++)). by apply IH1.
  - intros [H|H]%matches_Alt; cbn [residuals]; apply elem_of_app; auto.
Qed.

Lemma first_some_is_Some {A B} (f : A → option B) l x :
  x ∈ l → is_Some (f x) → is_Some (first_some f l).
Proof.
  induction l as [|x' l IH]; [by intros ?%elem_of_nil|].
  intros [->|Hx]%elem_of_cons Hfx; simpl.
  - destruct Hfx as [y ->]. eauto.
  - destruct (f x'); [eauto|by apply IH].
Qed.

Lemma leaf_end_unique leaf leaf' t t' :
  leaf ∈ leaves → leaf' ∈ leaves →
  t = [] ∨ t = [newline] → t' = [] ∨ t' = [newline] →
  leaf ++ t = leaf' ++ t' → leaf = leaf' ∧ t = t'.
Proof.
  unfold leaves. simpl. intros Hl Hl' Ht Ht'.
  repeat (apply elem_of_cons in Hl as [-> | Hl]);
    [..|by apply elem_of_nil in Hl];
    (repeat (apply elem_of_cons in Hl' as [-> | Hl']);
     [..|by apply elem_of_nil in Hl']);
    destruct Ht as [-> | ->], Ht' as [-> | ->]; by intros [=].
Qed.

(** The split of a key into the two groups is unique. *)
Lemma pattern_split_unique a b t a' b' t' :
  matches group2 b = true → matches group2 b' = true →
  t = [] ∨ t = [newline] → t' = [] ∨ t' = [newline] →
  a ++ "."%char :: b ++ t = a' ++ "."%char :: b' ++ t' →
  a = a' ∧ b = b' ∧ t = t'.
Proof.
  intros (d & leaf & -> & _ & Hleaf)%group2_inv
         (d' & leaf' & -> & _ & Hleaf')%group2_inv Ht Ht' Heq.
  assert ((a ++ ["."%char; d]) ++ "."%char :: (leaf ++ t)
          = (a' ++ ["."%char; d']) ++ "."%char :: (leaf' ++ t')) as Heq'.
  { rewrite <- !(assoc_L (++)). exact Heq. }
  apply last_dot_split in Heq' as [Hpre Hpost];
    [|by apply leaves_no_dot..].
  apply leaf_end_unique in Hpost as [-> ->]; [|done..].
  change (a ++ ["."%char; d]) with (a ++ ["."%char] ++ [d]) in Hpre.
  change (a' ++ ["."%char; d']) with (a' ++ ["."%char] ++ [d']) in Hpre.
  rewrite !(assoc_L (++)) in Hpre.
  apply app_inj_tail in Hpre as [Hpre ->].
  by apply app_inj_tail in Hpre as [-> _].
Qed.

Lemma pattern_match_complete (key : string) (a b t : list ascii) :
  String.list_ascii_of_string key = a ++ "."%char :: b ++ t →
  t = [] ∨ t = [newline] →
  matches group1 a = true → matches group2 b = true →
  pattern_match key
  = Some (String.string_of_list_ascii a, String.string_of_list_ascii b).
Proof.
  intros Hkey Ht Ha Hb.
  assert (is_Some (pattern_match key)) as [[g1 g2] Hm].
  { unfold pattern_match. rewrite Hkey.
    eapply (first_some_is_Some _ _ ("."%char :: b ++ t)).
    { by apply residuals_complete. }
    cbv beta iota. rewrite bool_decide_eq_true_2 by done.
    eapply (first_some_is_Some _ _ t).
    { by apply residuals_complete. }
    cbv beta. unfold at_dollar.
    destruct Ht as [-> | ->].
    - rewrite bool_decide_eq_true_2 by done. simpl. eauto.
    - rewrite (bool_decide_eq_true_2 ([newline] = [newline])) by done.
      rewrite orb_true_r. eauto. }
  rewrite Hm. f_equal.
  apply pattern_match_Some in Hm
    as (a' & b' & t' & Hkey' & Ht' & -> & -> & Ha' & Hb').
  rewrite Hkey in Hkey'.
  by apply pattern_split_unique in Hkey' as (-> & -> & _).
Qed.


Definition chars (s : string) : list ascii := String.list_ascii_of_string s.

Lemma matches_group1_intro prefix digits stage :
  forallb any_char prefix = true →
  digits ≠ [] → forallb digit digits = true →
  stage ∈ stages →
  matches group1
    (prefix ++ chars "denselayer" ++ digits ++ chars "." ++ stage) = true.
Proof.
  intros Hp Hne Hd Hs. unfold group1.
  apply matches_Cat. eexists _, _. split; [done|]. split; [done|].
  apply matches_Cat. eexists _, _. split; [done|].
  split; [by apply matches_lit|].
  apply matches_Cat. eexists _, _. split; [done|]. split.
  { destruct digits as [|c ds]; [done|]. simpl in Hd.
    apply andb_true_iff in Hd as [Hc Hds].
    apply matches_Cat. exists [c], ds. split; [done|]. split; [|done].
    apply matches_Cls. eauto. }
  apply matches_Cat. eexists _, _. split; [done|].
  split; [by apply matches_lit|].
  unfold stages in Hs. simpl in Hs.
  repeat (apply elem_of_cons in Hs as [-> | Hs]);
    [..|by apply elem_of_nil in Hs];
    rewrite !matches_Alt, !matches_lit; auto.
Qed.

Lemma matches_group2_intro d leaf :
  one_or_two d = true → leaf ∈ leaves →
  matches group2 (d :: "."%char :: leaf) = true.
Proof.
  intros Hd Hl. unfold group2.
  apply matches_Cat. exists [d], ("."%char :: leaf). split; [done|].
  split; [apply matches_Cls; eauto|].
  apply matches_Cat. exists ["."%char], leaf. split; [done|].
  split; [by apply matches_lit|].
  unfold leaves in Hl. simpl in Hl.
  repeat (apply elem_of_cons in Hl as [-> | Hl]);
    [..|by apply elem_of_nil in Hl];
    rewrite !matches_Alt, !matches_lit; auto.
Qed.

(** A key [<prefix>denselayer<digits>.<stage>.<1|2>.<leaf>] (prefix on
    one line, at least one digit, stage norm, relu or conv, leaf weight,
    bias, running_mean or running_var) matches, with the dot between the
    stage and its number as the only character outside the groups: the
    new key is the old one without that dot. *)
Theorem legacy_key_groups (prefix digits stage leaf : list ascii) (d : ascii) :
  forallb any_char prefix = true →
  digits ≠ [] → forallb digit digits = true →
  stage ∈ stages → one_or_two d = true → leaf ∈ leaves →
  pattern_match
    (String.string_of_list_ascii
       ((prefix ++ chars "denselayer" ++ digits ++ chars "." ++ stage)
        ++ "."%char :: d :: "."%char :: leaf))
  = Some (String.string_of_list_ascii
            (prefix ++ chars "denselayer" ++ digits ++ chars "." ++ stage),
          String.string_of_list_ascii (d :: "."%char :: leaf)).
Proof.
  intros Hp Hne Hds Hs Hd Hl.
  apply (pattern_match_complete _ _ _ []).
  - rewrite String.list_ascii_of_string_of_list_ascii.
    by rewrite app_nil_r.
  - by left.
  - by apply matches_group1_intro.
  - by apply matches_group2_intro.
Qed.

Lemma legacy_key_groups_witness :
  pattern_match
    (String.string_of_list_ascii
       ((chars "features.denseblock2." ++ chars "denselayer" ++ chars "16"
         ++ chars "." ++ chars "conv")
        ++ "."%char :: "2"%char :: "."%char :: chars "weight"))
  = Some (String.string_of_list_ascii
            (chars "features.denseblock2." ++ chars "denselayer"
             ++ chars "16" ++ chars "." ++ chars "conv"),
          String.string_of_list_ascii
            ("2"%char :: "."%char :: chars "weight")).
Proof.
  apply (legacy_key_groups (chars "features.denseblock2.") (chars "16")
           (chars "conv") (chars "weight") "2"%char);
    try (by vm_compute).
  - vm_compute. right. right. left.
  - vm_compute. left.
Defined.

(** ** Reading the class mapping *)

Lemma dict_get_zip_index_keys (l : list string) (k n i : nat) :
  length l = n →
  Dict.get (pretty i) (zip (pretty <$> seq k n) l)
  = if decide (i < k)%nat then None else l !! (i - k)%nat.
Proof.
  revert k n. induction l as [|c l IH]; intros k n Hn; simpl in Hn; subst n.
  - simpl. by case_decide.
  - cbn [length seq fmap list_fmap zip zip_with Dict.get].
    destruct (decide (pretty k = pretty i)) as [Heq%(inj pretty)|Hne].
    + subst k. rewrite decide_False by lia. by rewrite Nat.sub_diag.
    + rewrite (IH (S k) (length l)) by done.
      assert (i ≠ k) by (by intros ->).
      destruct (decide (i < S k)%nat), (decide (i < k)%nat); try lia; [done|].
      by replace (i - k)%nat with (S (i - S k)) by lia.
Qed.

(** The mapping file gives, under the decimal index [i], the [i]-th
    smallest class name, and nothing under any index from the number of
    classes on; for class names that are already ascending (as the folder
    scan returns them) index [i] is the name at position [i] of the
    class list, the label that training used for that class. *)
Theorem class_mapping_lookup (class_names : list string) (i : nat) :
  ∃ classes_dict,
    class_mapping class_names = Ok classes_dict
    ∧ Dict.get (pretty i) classes_dict = sorted class_names !! i
    ∧ Dict.keys classes_dict = index_keys (length class_names)
    ∧ (Sorted String.le class_names →
       Dict.get (pretty i) classes_dict = class_names !! i).
Proof.
  eexists. split; [apply class_mapping_zip|].
  assert (length (sorted class_names) = length class_names) as Hlen
    by apply Permutation_length, sorted_Permutation.
  assert (Dict.get (pretty i)
            (zip (index_keys (length class_names)) (sorted class_names))
          = sorted class_names !! i) as Hget.
  { unfold index_keys. rewrite dict_get_zip_index_keys by done.
    rewrite decide_False by lia. by rewrite Nat.sub_0_r. }
  split; [done|]. split.
  - unfold Dict.keys. apply fst_zip.
    unfold index_keys. rewrite length_fmap, length_seq. lia.
  - intros Hs. rewrite Hget. f_equal. symmetry. by apply sorted_unique.
Qed.

(** ** The dataset name (line 125) *)

Lemma drop_seps_replicate (k : nat) (l : list ascii) :
  drop_seps (replicate k sep ++ l) = drop_seps l.
Proof.
  induction k as [|k IH]; [done|].
  cbn [replicate app drop_seps]. by rewrite bool_decide_eq_true_2.
Qed.

Lemma drop_seps_no_sep (c : ascii) (l : list ascii) :
  c ≠ sep → drop_seps (c :: l) = c :: l.
Proof. intros Hc. cbn [drop_seps]. by rewrite bool_decide_eq_false_2. Qed.

Lemma until_sep_app (l rest : list ascii) :
  sep ∉ l → until_sep (l ++ sep :: rest) = l.
Proof.
  induction l as [|c l IH]; cbn [app until_sep]; intros Hl.
  - by rewrite bool_decide_eq_true_2.
  - rewrite bool_decide_eq_false_2 by set_solver. f_equal. apply IH. set_solver.
Qed.

Lemma until_sep_all (l : list ascii) : sep ∉ l → until_sep l = l.
Proof.
  induction l as [|c l IH]; cbn [until_sep]; intros Hl; [done|].
  rewrite bool_decide_eq_false_2 by set_solver. f_equal. apply IH. set_solver.
Qed.

Lemma until_sep_no_sep (l : list ascii) : sep ∉ until_sep l.
Proof.
  induction l as [|c l IH]; cbn [until_sep]; [set_solver|].
  case_bool_decide; set_solver.
Qed.

(** The name of a dataset is the last component of its directory,
    whatever the number of separators that end the path. *)
Lemma basename_last_component (parent name : list ascii) (k : nat) :
  name ≠ [] → sep ∉ name →
  parent = [] ∨ (∃ p, parent = p ++ [sep]) →
  os_path_basename
    (rstrip_sep
       (String.string_of_list_ascii (parent ++ name ++ replicate k sep)))
  = String.string_of_list_ascii name.
Proof.
  intros Hne Hsep Hparent. unfold os_path_basename, rstrip_sep.
  rewrite !String.list_ascii_of_string_of_list_ascii. f_equal.
  rewrite !reverse_app, reverse_replicate, <- app_assoc, drop_seps_replicate.
  destruct (reverse name) as [|c rn] eqn:Hrn.
  { apply (f_equal reverse) in Hrn. rewrite reverse_involutive in Hrn. done. }
  assert (sep ∉ c :: rn) as Hsep'.
  { rewrite <- Hrn. by rewrite elem_of_reverse. }
  cbn [app]. rewrite drop_seps_no_sep by set_solver.
  rewrite reverse_involutive.
  assert (until_sep ((c :: rn) ++ reverse parent) = c :: rn) as Hu.
  { destruct Hparent as [->|[p ->]].
    - rewrite app_nil_r. by apply until_sep_all.
    - rewrite reverse_app. by apply until_sep_app. }
  cbn [app] in Hu. rewrite Hu.
  by rewrite <- Hrn, reverse_involutive.
Qed.

(** After a successful [__load_data] the dataset is named after the last
    component of the data directory, trailing separators ignored; the
    name never contains a separator, so the files named after it are
    created in the model directory itself. *)
Theorem load_data_dataset_name (batch_size : nat) (w w' : World)
  (parent name : list ascii) (k : nat) :
  load_data batch_size w = (Ok tt, w') →
  data_dir (self w)
  = String.string_of_list_ascii (parent ++ name ++ replicate k sep) →
  name ≠ [] → sep ∉ name →
  parent = [] ∨ (∃ p, parent = p ++ [sep]) →
  dataset_name (self w') = String.string_of_list_ascii name
  ∧ sep ∉ String.list_ascii_of_string (dataset_name (self w'))
  ∧ data_dir (self w') = data_dir (self w).
Proof.
  intros Hrun Hdir Hne Hsep Hparent.
  rewrite load_data_run in Hrun.
  repeat case_match; try done. injection Hrun as <-. simpl.
  rewrite Hdir, basename_last_component by done.
  by rewrite String.list_ascii_of_string_of_list_ascii.
Qed.

(** A data directory given with a parent and trailing separators. *)
Definition nested_world : World :=
  {| self := with_data_dir init "/data/pets//"; heap := [];
     disk := {| dirs := {[ "/data/pets//" := [];
                           "/data/pets//train" := [("dog", 2%nat)];
                           "/data/pets//test" := [("dog", 1%nat)] ]};
                files := ∅ |};
     trace := [] |}.

Lemma load_data_dataset_name_witness :
  dataset_name (self (after (load_data 2) nested_world)) = "pets"
  ∧ sep ∉ String.list_ascii_of_string
            (dataset_name (self (after (load_data 2) nested_world)))
  ∧ data_dir (self (after (load_data 2) nested_world)) = "/data/pets//".
Proof.
  apply (load_data_dataset_name 2 nested_world
           (after (load_data 2) nested_world)
           (chars "/data/") (chars "pets") 2).
  - by vm_compute.
  - by vm_compute.
  - done.
  - apply (bool_decide_unpack _). by vm_compute.
  - right. by exists (chars "/data").
Defined.

(** ** What the key rewrite does to the entries (lines 92-97) *)





Lemma dict_get_Some_keys {V} k (v : V) d :
  Dict.get k d = Some v → k ∈ Dict.keys d.
Proof.
  unfold Dict.keys. induction d as [|[k0 v0] d IH]; simpl; [done|].
  case_decide; [subst; left|right; auto].
Qed.


Section remap_values.
Context {V : Type}.
Implicit Types (d : Dict.t V) (ks : list string).


End remap_values.



(** ** Checkpoints that cannot be loaded *)




Section failed_transfer.
Context (format_5f : Q → string) (batches : nat → Phase → list Batch).


End failed_transfer.


(** *** Checkpoints of a re-headed network *)







Section refused_transfer.
Context (format_5f : Q → string) (batches : nat → Phase → list Batch).


End refused_transfer.


